(** * The Query builder of the Realtime Database client
    (packages/database/src/api/Query.ts)

    A shallow embedding of the [Query] class: JavaScript values, a heap of
    [Query] objects with an exception monad over it, the modules [Query.ts]
    imports as interfaces, and the methods of the class written after the
    source, statement by statement. *)

From Stdlib Require Import Ascii String QArith Qcanon Qround.
From stdpp Require Import base numbers strings list gmap countable pretty.

Local Open Scope string_scope.

(** ** JavaScript values *)

(** A heap address of a [Query] instance. *)
Definition loc := nat.

(** The [number] type: the IEEE special values and the finite numbers, the
    latter as rationals (negative zero is identified with zero). *)
Inductive JsNumber :=
  | NaN
  | PosInfinity
  | NegInfinity
  | Finite (q : Qc).

Inductive JsValue :=
  | JUndefined
  | JNull
  | JBoolean (b : bool)
  | JNumber (n : JsNumber)
  | JString (s : string)
  | JObject (o : nat)      (* an object that is no Query, by identity *)
  | JFunction (f : nat)    (* a function, by identity *)
  | JQuery (l : loc).      (* a reference to a Query instance *)

Global Instance JsNumber_eq_dec : EqDecision JsNumber.
Proof. solve_decision. Defined.

Global Instance JsValue_eq_dec : EqDecision JsValue.
Proof. solve_decision. Defined.

Global Instance JsValue_inhabited : Inhabited JsValue := populate JUndefined.

(** [typeof v] *)
Definition typeof (v : JsValue) : string :=
  match v with
  | JUndefined => "undefined"
  | JNull => "object"
  | JBoolean _ => "boolean"
  | JNumber _ => "number"
  | JString _ => "string"
  | JObject _ => "object"
  | JFunction _ => "function"
  | JQuery _ => "object"
  end.

(** ToBoolean: the truthiness used by [if (v)], [a && b] and [a || b]. *)
Definition truthy (v : JsValue) : bool :=
  match v with
  | JUndefined | JNull => false
  | JBoolean b => b
  | JNumber NaN => false
  | JNumber (Finite q) => negb (bool_decide (q = 0%Qc))
  | JNumber _ => true
  | JString s => negb (bool_decide (s = ""))
  | JObject _ | JFunction _ | JQuery _ => true
  end.

(** [a === b] on numbers: [NaN] is different from itself. *)
Definition number_strict_eq (a b : JsNumber) : bool :=
  match a, b with
  | NaN, _ | _, NaN => false
  | _, _ => bool_decide (a = b)
  end.

(** [a === b] *)
Definition strict_eq (a b : JsValue) : bool :=
  match a, b with
  | JNumber x, JNumber y => number_strict_eq x y
  | _, _ => bool_decide (a = b)
  end.

(** [v == null], which also holds of [undefined]. *)
Definition loose_eq_null (v : JsValue) : bool :=
  match v with
  | JUndefined | JNull => true
  | _ => false
  end.

(** [a || b] on values. *)
Definition js_or (a b : JsValue) : JsValue := if truthy a then a else b.

(** [Math.floor] *)
Definition Math_floor (n : JsNumber) : JsNumber :=
  match n with
  | Finite q => Finite (Q2Qc (inject_Z (Qfloor q)))
  | _ => n
  end.

(** [n <= 0]: every comparison with [NaN] is false. *)
Definition number_le_zero (n : JsNumber) : bool :=
  match n with
  | NaN => false
  | PosInfinity => false
  | NegInfinity => true
  | Finite q => bool_decide (q ≤ 0)%Qc
  end.

(** The [i]-th actual argument of a call ([undefined] when it is absent). *)
Definition arg (i : nat) (args : list JsValue) : JsValue :=
  default JUndefined (args !! i).

(** A parameter with the default value [null]: the default applies when the
    argument is absent or [undefined]. *)
Definition arg_or_null (i : nat) (args : list JsValue) : JsValue :=
  match arg i args with
  | JUndefined => JNull
  | v => v
  end.

(** The character [U+0022], for the messages that quote a word. *)
Definition dquote : string := String "034"%char EmptyString.

(** ** Exceptions *)

Inductive Exn :=
  | Error (message : string)           (* [throw new Error(message)] *)
  | AssertionError (message : string)  (* a failed [assert] *)
  | TypeError (message : string).      (* a method run on a receiver that is no Query *)

Inductive Result (A : Type) :=
  | Ok (a : A)
  | Throw (e : Exn).
Global Arguments Ok {A} a.
Global Arguments Throw {A} e.

Global Instance Result_ret : MRet Result := λ A a, Ok a.
Global Instance Result_bind : MBind Result := λ A B f r,
  match r with
  | Ok a => f a
  | Throw e => Throw e
  end.

Definition throws {A} (r : Result A) : Prop := ∃ e, r = Throw e.
Definition returns {A} (r : Result A) : Prop := ∃ a, r = Ok a.

(** [assert(cond, message)] of [@firebase/util]. *)
Definition assert (cond : bool) (message : string) : Result unit :=
  if cond then Ok () else Throw (AssertionError message).

(** ** The modules [Query.ts] imports

    Their sources are not part of this development: each is an interface,
    and everything below holds of every implementation of it. *)

(** [core/util/Path] *)
Class PathModule := {
  Path : Type;
  (** [new Path(pathString)] *)
  Path_new : JsValue → Path;
  pathIsEmpty : Path → bool;
  pathEquals : Path → Path → bool;
  pathToUrlEncodedString : Path → string;
}.

(** [core/snap/indexes]: the three index singletons [KEY_INDEX],
    [PRIORITY_INDEX], [VALUE_INDEX] and the instances of [PathIndex]. *)
Inductive Index `{PathModule} :=
  | KEY_INDEX
  | PRIORITY_INDEX
  | VALUE_INDEX
  | PathIndex (indexPath : Path).

(** [index === KEY_INDEX] *)
Definition is_KEY_INDEX `{PathModule} (i : Index) : bool :=
  match i with KEY_INDEX => true | _ => false end.

(** [index === PRIORITY_INDEX] *)
Definition is_PRIORITY_INDEX `{PathModule} (i : Index) : bool :=
  match i with PRIORITY_INDEX => true | _ => false end.

(** [index === VALUE_INDEX] *)
Definition is_VALUE_INDEX `{PathModule} (i : Index) : bool :=
  match i with VALUE_INDEX => true | _ => false end.

(** [index instanceof PathIndex] *)
Definition instanceof_PathIndex `{PathModule} (i : Index) : bool :=
  match i with PathIndex _ => true | _ => false end.

(** [core/view/QueryParams]: the parameter object of a query, its
    accessors, and the functions that build a changed copy of it. *)
Class QueryParamsModule `{PathModule} := {
  QueryParams : Type;
  hasStart : QueryParams → bool;
  hasEnd : QueryParams → bool;
  hasLimit : QueryParams → bool;
  hasAnchoredLimit : QueryParams → bool;
  getIndex : QueryParams → Index;
  getIndexStartValue : QueryParams → JsValue;
  getIndexStartName : QueryParams → string;
  getIndexEndValue : QueryParams → JsValue;
  getIndexEndName : QueryParams → string;
  queryParamsStartAt : QueryParams → JsValue → JsValue → QueryParams;
  queryParamsStartAfter : QueryParams → JsValue → JsValue → QueryParams;
  queryParamsEndAt : QueryParams → JsValue → JsValue → QueryParams;
  queryParamsEndBefore : QueryParams → JsValue → JsValue → QueryParams;
  queryParamsLimitToFirst : QueryParams → JsNumber → QueryParams;
  queryParamsLimitToLast : QueryParams → JsNumber → QueryParams;
  queryParamsOrderBy : QueryParams → Index → QueryParams;
  queryParamsGetQueryObject : QueryParams → gmap string JsValue;
}.

(** [core/util/util], [core/util/validation], [core/Repo], [./Database] and
    [@firebase/util]. A validator returns [Ok ()] or throws. *)
Class Imports `{PathModule} := {
  (* core/util/util *)
  MIN_NAME : string;
  MAX_NAME : string;
  ObjectToUniqueKey : gmap string JsValue → string;
  (* core/util/validation *)
  isValidPriority : JsValue → bool;
  validateEventType : string → nat → JsValue → bool → Result unit;
  validateFirebaseDataArg : string → nat → JsValue → Path → bool → Result unit;
  validateKey : string → nat → JsValue → bool → Result unit;
  validatePathString : string → nat → JsValue → bool → Result unit;
  (* @firebase/util *)
  errorPrefix : string → nat → bool → string;
  validateArgCount : string → nat → nat → nat → Result unit;
  validateCallback : string → nat → JsValue → bool → Result unit;
  validateContextObject : string → nat → JsValue → bool → Result unit;
  (* core/Repo and ./Database: a repo is compared by identity *)
  Repo : Type;
  Repo_eq_dec :: EqDecision Repo;
  Repo_toString : Repo → string;
  Database : Type;
  repo_ : Database → Repo;
}.

(** ** The class [Query] *)

Section Query.
Context `{QueryParamsModule} `{!Imports}.

(** The fields of an instance; [repo] is set by the constructor. *)
Record Query := mkQuery {
  repo : Repo;
  database : Database;
  path : Path;
  queryParams_ : QueryParams;
  orderByCalled_ : bool;
}.

(** [core/view/EventRegistration]: what [on] hands to the repo. The
    object [{ [eventType]: callback }] of a child registration keeps its
    one key as the value it was given as. *)
Inductive EventRegistration :=
  | ValueEventRegistration (callback cancelCallback context : JsValue)
  | ChildEventRegistration (callbacks : list (JsValue * JsValue))
      (cancelCallback context : JsValue).

(** The heap: the [Query] instances, addressed by position, and the
    listeners registered with the repos. *)
Record Heap := mkHeap {
  queries : list Query;
  registrations : list (Repo * loc * EventRegistration);
}.

(** A method body: it runs on a heap, and returns or throws. *)
Definition M (A : Type) : Type := Heap → Heap * Result A.

Global Instance M_ret : MRet M := λ A a h, (h, Ok a).
Global Instance M_bind : MBind M := λ A B f m h,
  match m h with
  | (h', Ok a) => f a h'
  | (h', Throw e) => (h', Throw e)
  end.

Definition throw {A} (e : Exn) : M A := λ h, (h, Throw e).

(** A call of a function that does not touch the heap. *)
Definition lift {A} (r : Result A) : M A := λ h, (h, r).

(** Reading the fields of the receiver. *)
Definition this_ (this : loc) : M Query := λ h,
  match queries h !! this with
  | Some q => (h, Ok q)
  | None => (h, Throw (TypeError "the receiver is not a Query"))
  end.

(** [other instanceof Query] *)
Definition instanceof_Query (other : JsValue) : M (option loc) := λ h,
  match other with
  | JQuery l => (h, Ok (if queries h !! l is Some _ then Some l else None))
  | _ => (h, Ok None)
  end.

(** [new Query(database, path, queryParams_, orderByCalled_)] *)
Definition new_Query (database : Database) (path : Path)
    (queryParams_ : QueryParams) (orderByCalled_ : bool) : M loc := λ h,
  (mkHeap
     (queries h ++ [mkQuery (repo_ database) database path queryParams_ orderByCalled_])
     (registrations h),
   Ok (length (queries h))).

(** [repoAddEventCallbackForQuery(repo, query, eventRegistration)]
    Modelled from the spec: [core/Repo] is absent from the sources; the
    spec keeps a registry of event registrations, each a listener bound
    to a query, and this adds one to it. *)
Definition repoAddEventCallbackForQuery (repo : Repo) (query : loc)
    (eventRegistration : EventRegistration) : M unit := λ h,
  (mkHeap (queries h) (registrations h ++ [(repo, query, eventRegistration)]), Ok ()).

(** *** Static validators *)

(** [Query.validateQueryEndpoints_(params)]: validates start/end values
    for queries. *)
Definition validateQueryEndpoints_ (params : QueryParams) : Result unit :=
  let startNode := if hasStart params then getIndexStartValue params else JNull in
  let endNode := if hasEnd params then getIndexEndValue params else JNull in
  if is_KEY_INDEX (getIndex params) then
    let tooManyArgsError :=
      "Query: When ordering by key, you may only pass one argument to " +:+
      "startAt(), endAt(), or equalTo()." in
    let wrongArgTypeError :=
      "Query: When ordering by key, the argument passed to startAt(), startAfter(), " +:+
      "endAt(), endBefore(), or equalTo() must be a string." in
    (if hasStart params then
       let startName := getIndexStartName params in
       if negb (bool_decide (startName = MIN_NAME)) then
         Throw (Error tooManyArgsError)
       else if negb (bool_decide (typeof startNode = "string")) then
         Throw (Error wrongArgTypeError)
       else Ok ()
     else Ok ());;
    (if hasEnd params then
       let endName := getIndexEndName params in
       if negb (bool_decide (endName = MAX_NAME)) then
         Throw (Error tooManyArgsError)
       else if negb (bool_decide (typeof endNode = "string")) then
         Throw (Error wrongArgTypeError)
       else Ok ()
     else Ok ())
  else if is_PRIORITY_INDEX (getIndex params) then
    if (negb (loose_eq_null startNode) && negb (isValidPriority startNode))
       || (negb (loose_eq_null endNode) && negb (isValidPriority endNode))
    then
      Throw (Error
        ("Query: When ordering by priority, the first argument passed to startAt(), " +:+
         "startAfter() endAt(), endBefore(), or equalTo() must be a valid priority value " +:+
         "(null, a number, or a string)."))
    else Ok ()
  else
    assert
      (instanceof_PathIndex (getIndex params) || is_VALUE_INDEX (getIndex params))
      "unknown index type.";;
    if (negb (loose_eq_null startNode) && bool_decide (typeof startNode = "object"))
       || (negb (loose_eq_null endNode) && bool_decide (typeof endNode = "object"))
    then
      Throw (Error
        ("Query: First argument passed to startAt(), startAfter(), endAt(), endBefore(), or " +:+
         "equalTo() cannot be an object."))
    else Ok ().

(** [Query.validateLimit_(params)]: validates that limit* has been called
    with the correct combination of parameters. *)
Definition validateLimit_ (params : QueryParams) : Result unit :=
  if hasStart params && hasEnd params && hasLimit params
     && negb (hasAnchoredLimit params)
  then
    Throw (Error
      ("Query: Can't combine startAt(), startAfter(), endAt(), endBefore(), and limit(). Use " +:+
       "limitToFirst() or limitToLast() instead."))
  else Ok ().

(** [validateNoPreviousOrderByCall_(fnName)]: validates that no other
    order by call has been made. *)
Definition validateNoPreviousOrderByCall_ (this : loc) (fnName : string) : M unit :=
  q ← this_ this;
  if bool_decide (orderByCalled_ q = true) then
    throw (Error (fnName +:+ ": You can't combine multiple orderBy calls."))
  else mret ().

Definition getQueryParams (this : loc) : M QueryParams :=
  q ← this_ this;
  mret (queryParams_ q).

(** *** Listeners *)

(** The result of [getCancelAndContextArgs_]. *)
Record CancelAndContext := mkCancelAndContext {
  cancel : JsValue;
  context : JsValue;
}.

(** [Query.getCancelAndContextArgs_(fnName, cancelOrContext, context)]:
    helper used by .on and .once to extract the context and or cancel
    arguments. *)
Definition getCancelAndContextArgs_ (fnName : string)
    (cancelOrContext context_ : JsValue) : Result CancelAndContext :=
  let ret := mkCancelAndContext JNull JNull in
  if truthy cancelOrContext && truthy context_ then
    let ret := mkCancelAndContext cancelOrContext (context ret) in
    validateCallback fnName 3 (cancel ret) true;;
    let ret := mkCancelAndContext (cancel ret) context_ in
    validateContextObject fnName 4 (context ret) true;;
    Ok ret
  else if truthy cancelOrContext then
    (* we have either a cancel callback or a context. *)
    if bool_decide (typeof cancelOrContext = "object")
       && negb (strict_eq cancelOrContext JNull)
    then (* it's a context! *)
      Ok (mkCancelAndContext (cancel ret) cancelOrContext)
    else if bool_decide (typeof cancelOrContext = "function") then
      Ok (mkCancelAndContext cancelOrContext (context ret))
    else
      Throw (Error
        (errorPrefix fnName 3 true +:+
         " must either be a cancel callback or a context object."))
  else Ok ret.

Definition onValueEvent (this : loc) (callback cancelCallback context_ : JsValue)
    : M unit :=
  q ← this_ this;
  let container :=
    ValueEventRegistration callback (js_or cancelCallback JNull) (js_or context_ JNull) in
  repoAddEventCallbackForQuery (repo q) this container.

Definition onChildEvent (this : loc) (callbacks : list (JsValue * JsValue))
    (cancelCallback context_ : JsValue) : M unit :=
  q ← this_ this;
  let container := ChildEventRegistration callbacks cancelCallback context_ in
  repoAddEventCallbackForQuery (repo q) this container.

(** [on(eventType, callback, cancelCallbackOrContext?, context?)] *)
Definition on (this : loc) (args : list JsValue) : M JsValue :=
  let eventType := arg 0 args in
  let callback := arg 1 args in
  let cancelCallbackOrContext := arg 2 args in
  let context_ := arg 3 args in
  lift (validateArgCount "Query.on" 2 4 (length args));;
  lift (validateEventType "Query.on" 1 eventType false);;
  lift (validateCallback "Query.on" 2 callback false);;
  ret ← lift (getCancelAndContextArgs_ "Query.on" cancelCallbackOrContext context_);
  (if strict_eq eventType (JString "value") then
     onValueEvent this callback (cancel ret) (context ret)
   else
     let callbacks := [(eventType, callback)] in
     onChildEvent this callbacks (cancel ret) (context ret));;
  mret callback.

(** *** Limits *)

(** [limitToFirst(limit)]: set a limit and anchor it to the start of the
    window. *)
Definition limitToFirst (this : loc) (args : list JsValue) : M loc :=
  q ← this_ this;
  let limit := arg 0 args in
  lift (validateArgCount "Query.limitToFirst" 1 1 (length args));;
  match limit with
  | JNumber n =>
      if negb (number_strict_eq (Math_floor n) n) || number_le_zero n then
        throw (Error "Query.limitToFirst: First argument must be a positive integer.")
      else if hasLimit (queryParams_ q) then
        throw (Error
          ("Query.limitToFirst: Limit was already set (by another call to limit, " +:+
           "limitToFirst, or limitToLast)."))
      else
        new_Query (database q) (path q)
          (queryParamsLimitToFirst (queryParams_ q) n) (orderByCalled_ q)
  | _ => (* typeof limit !== 'number' *)
      throw (Error "Query.limitToFirst: First argument must be a positive integer.")
  end.

(** [limitToLast(limit)]: set a limit and anchor it to the end of the
    window. *)
Definition limitToLast (this : loc) (args : list JsValue) : M loc :=
  q ← this_ this;
  let limit := arg 0 args in
  lift (validateArgCount "Query.limitToLast" 1 1 (length args));;
  match limit with
  | JNumber n =>
      if negb (number_strict_eq (Math_floor n) n) || number_le_zero n then
        throw (Error "Query.limitToLast: First argument must be a positive integer.")
      else if hasLimit (queryParams_ q) then
        throw (Error
          ("Query.limitToLast: Limit was already set (by another call to limit, " +:+
           "limitToFirst, or limitToLast)."))
      else
        new_Query (database q) (path q)
          (queryParamsLimitToLast (queryParams_ q) n) (orderByCalled_ q)
  | _ => (* typeof limit !== 'number' *)
      throw (Error "Query.limitToLast: First argument must be a positive integer.")
  end.

(** *** Orderings *)

(** [orderByChild(path)]: given a child path, return a new query ordered
    by the specified grandchild path. *)
Definition orderByChild (this : loc) (args : list JsValue) : M loc :=
  q ← this_ this;
  let path_ := arg 0 args in
  lift (validateArgCount "Query.orderByChild" 1 1 (length args));;
  if strict_eq path_ (JString "$key") then
    throw (Error
      ("Query.orderByChild: " +:+ dquote +:+ "$key" +:+ dquote +:+
       " is invalid.  Use Query.orderByKey() instead."))
  else if strict_eq path_ (JString "$priority") then
    throw (Error
      ("Query.orderByChild: " +:+ dquote +:+ "$priority" +:+ dquote +:+
       " is invalid.  Use Query.orderByPriority() instead."))
  else if strict_eq path_ (JString "$value") then
    throw (Error
      ("Query.orderByChild: " +:+ dquote +:+ "$value" +:+ dquote +:+
       " is invalid.  Use Query.orderByValue() instead."))
  else
    lift (validatePathString "Query.orderByChild" 1 path_ false);;
    validateNoPreviousOrderByCall_ this "Query.orderByChild";;
    let parsedPath := Path_new path_ in
    if pathIsEmpty parsedPath then
      throw (Error
        "Query.orderByChild: cannot pass in empty path.  Use Query.orderByValue() instead.")
    else
      let index := PathIndex parsedPath in
      let newParams := queryParamsOrderBy (queryParams_ q) index in
      lift (validateQueryEndpoints_ newParams);;
      new_Query (database q) (path q) newParams (* orderByCalled= *) true.

(** [orderByKey()]: return a new query ordered by the KeyIndex. *)
Definition orderByKey (this : loc) (args : list JsValue) : M loc :=
  q ← this_ this;
  lift (validateArgCount "Query.orderByKey" 0 0 (length args));;
  validateNoPreviousOrderByCall_ this "Query.orderByKey";;
  let newParams := queryParamsOrderBy (queryParams_ q) KEY_INDEX in
  lift (validateQueryEndpoints_ newParams);;
  new_Query (database q) (path q) newParams (* orderByCalled= *) true.

(** [orderByPriority()]: return a new query ordered by the PriorityIndex. *)
Definition orderByPriority (this : loc) (args : list JsValue) : M loc :=
  q ← this_ this;
  lift (validateArgCount "Query.orderByPriority" 0 0 (length args));;
  validateNoPreviousOrderByCall_ this "Query.orderByPriority";;
  let newParams := queryParamsOrderBy (queryParams_ q) PRIORITY_INDEX in
  lift (validateQueryEndpoints_ newParams);;
  new_Query (database q) (path q) newParams (* orderByCalled= *) true.

(** [orderByValue()]: return a new query ordered by the ValueIndex. *)
Definition orderByValue (this : loc) (args : list JsValue) : M loc :=
  q ← this_ this;
  lift (validateArgCount "Query.orderByValue" 0 0 (length args));;
  validateNoPreviousOrderByCall_ this "Query.orderByValue";;
  let newParams := queryParamsOrderBy (queryParams_ q) VALUE_INDEX in
  lift (validateQueryEndpoints_ newParams);;
  new_Query (database q) (path q) newParams (* orderByCalled= *) true.

(** *** Ranges *)

(** [startAt(value = null, name?)] *)
Definition startAt (this : loc) (args : list JsValue) : M loc :=
  q ← this_ this;
  let value := arg_or_null 0 args in
  let name := arg 1 args in
  lift (validateArgCount "Query.startAt" 0 2 (length args));;
  lift (validateFirebaseDataArg "Query.startAt" 1 value (path q) true);;
  lift (validateKey "Query.startAt" 2 name true);;
  let newParams := queryParamsStartAt (queryParams_ q) value name in
  lift (validateLimit_ newParams);;
  lift (validateQueryEndpoints_ newParams);;
  if hasStart (queryParams_ q) then
    throw (Error
      ("Query.startAt: Starting point was already set (by another call to startAt " +:+
       "or equalTo)."))
  else
    (* Calling with no params tells us to start at the beginning. *)
    let '(value, name) :=
      if strict_eq value JUndefined then (JNull, JNull) else (value, name) in
    new_Query (database q) (path q) newParams (orderByCalled_ q).

(** [startAfter(value = null, name?)] *)
Definition startAfter (this : loc) (args : list JsValue) : M loc :=
  q ← this_ this;
  let value := arg_or_null 0 args in
  let name := arg 1 args in
  lift (validateArgCount "Query.startAfter" 0 2 (length args));;
  lift (validateFirebaseDataArg "Query.startAfter" 1 value (path q) false);;
  lift (validateKey "Query.startAfter" 2 name true);;
  let newParams := queryParamsStartAfter (queryParams_ q) value name in
  lift (validateLimit_ newParams);;
  lift (validateQueryEndpoints_ newParams);;
  if hasStart (queryParams_ q) then
    throw (Error
      ("Query.startAfter: Starting point was already set (by another call to startAt, startAfter " +:+
       "or equalTo)."))
  else
    new_Query (database q) (path q) newParams (orderByCalled_ q).

(** [endAt(value = null, name?)] *)
Definition endAt (this : loc) (args : list JsValue) : M loc :=
  q ← this_ this;
  let value := arg_or_null 0 args in
  let name := arg 1 args in
  lift (validateArgCount "Query.endAt" 0 2 (length args));;
  lift (validateFirebaseDataArg "Query.endAt" 1 value (path q) true);;
  lift (validateKey "Query.endAt" 2 name true);;
  let newParams := queryParamsEndAt (queryParams_ q) value name in
  lift (validateLimit_ newParams);;
  lift (validateQueryEndpoints_ newParams);;
  if hasEnd (queryParams_ q) then
    throw (Error
      ("Query.endAt: Ending point was already set (by another call to endAt, endBefore, or " +:+
       "equalTo)."))
  else
    new_Query (database q) (path q) newParams (orderByCalled_ q).

(** [endBefore(value = null, name?)] *)
Definition endBefore (this : loc) (args : list JsValue) : M loc :=
  q ← this_ this;
  let value := arg_or_null 0 args in
  let name := arg 1 args in
  lift (validateArgCount "Query.endBefore" 0 2 (length args));;
  lift (validateFirebaseDataArg "Query.endBefore" 1 value (path q) false);;
  lift (validateKey "Query.endBefore" 2 name true);;
  let newParams := queryParamsEndBefore (queryParams_ q) value name in
  lift (validateLimit_ newParams);;
  lift (validateQueryEndpoints_ newParams);;
  if hasEnd (queryParams_ q) then
    throw (Error
      ("Query.endBefore: Ending point was already set (by another call to endAt, endBefore, or " +:+
       "equalTo)."))
  else
    new_Query (database q) (path q) newParams (orderByCalled_ q).

(** [equalTo(value, name?)]: load the selection of children with exactly
    the specified value, and, optionally, the specified name. *)
Definition equalTo (this : loc) (args : list JsValue) : M loc :=
  q ← this_ this;
  let value := arg 0 args in
  let name := arg 1 args in
  lift (validateArgCount "Query.equalTo" 1 2 (length args));;
  lift (validateFirebaseDataArg "Query.equalTo" 1 value (path q) false);;
  lift (validateKey "Query.equalTo" 2 name true);;
  if hasStart (queryParams_ q) then
    throw (Error
      ("Query.equalTo: Starting point was already set (by another call to startAt/startAfter or " +:+
       "equalTo)."))
  else if hasEnd (queryParams_ q) then
    throw (Error
      ("Query.equalTo: Ending point was already set (by another call to endAt/endBefore or " +:+
       "equalTo)."))
  else
    started ← startAt this [value; name];
    endAt started [value; name].

(** *** Identity *)

(** [toString()]: URL for this location. *)
Definition toString (this : loc) (args : list JsValue) : M string :=
  q ← this_ this;
  lift (validateArgCount "Query.toString" 0 0 (length args));;
  mret (Repo_toString (repo q) +:+ pathToUrlEncodedString (path q)).

(** [toJSON()] *)
Definition toJSON (this : loc) (args : list JsValue) : M string :=
  (* An optional spacer argument is unnecessary for a string. *)
  lift (validateArgCount "Query.toJSON" 0 1 (length args));;
  toString this [].

(** [queryObject()]: an object representation of the query parameters
    used by this Query. *)
Definition queryObject (this : loc) : M (gmap string JsValue) :=
  q ← this_ this;
  mret (queryParamsGetQueryObject (queryParams_ q)).

(** [queryIdentifier()] *)
Definition queryIdentifier (this : loc) : M string :=
  obj ← queryObject this;
  let id := ObjectToUniqueKey obj in
  mret (if bool_decide (id = "{}") then "default" else id).

(** [isEqual(other)]: return true if this query and the provided query
    are equivalent; otherwise, return false. *)
Definition isEqual (this : loc) (args : list JsValue) : M bool :=
  q ← this_ this;
  lift (validateArgCount "Query.isEqual" 1 1 (length args));;
  other ← instanceof_Query (arg 0 args);
  match other with
  | None =>
      let error :=
        "Query.isEqual failed: First argument must be an instance of firebase.database.Query." in
      throw (Error error)
  | Some other =>
      o ← this_ other;
      let sameRepo := bool_decide (repo q = repo o) in
      let samePath := pathEquals (path q) (path o) in
      thisIdentifier ← queryIdentifier this;
      otherIdentifier ← queryIdentifier other;
      let sameQueryIdentifier := bool_decide (thisIdentifier = otherIdentifier) in
      mret (sameRepo && samePath && sameQueryIdentifier)
  end.

(** The transformation methods, for the statements that hold of each. *)
Inductive Transformation :=
  | OrderByChild | OrderByKey | OrderByPriority | OrderByValue
  | StartAt | StartAfter | EndAt | EndBefore | EqualTo
  | LimitToFirst | LimitToLast.

Definition call (t : Transformation) : loc → list JsValue → M loc :=
  match t with
  | OrderByChild => orderByChild
  | OrderByKey => orderByKey
  | OrderByPriority => orderByPriority
  | OrderByValue => orderByValue
  | StartAt => startAt
  | StartAfter => startAfter
  | EndAt => endAt
  | EndBefore => endBefore
  | EqualTo => equalTo
  | LimitToFirst => limitToFirst
  | LimitToLast => limitToLast
  end.

End Query.

(** ** The vocabulary of the statements *)

Section Vocabulary.
Context `{QueryParamsModule} `{!Imports}.
Local Open Scope list_scope.

(** What a method body may do to the heap: add instances at its end. *)
Definition extends (h h' : Heap) : Prop :=
  (∃ new, queries h' = queries h ++ new) ∧ registrations h' = registrations h.

(** The outcome of a builder: a throw, or the address of an instance that
    the call has added. *)
Definition fresh_result (h h' : Heap) (r : Result loc) : Prop :=
  match r with
  | Ok l => queries h !! l = None ∧ is_Some (queries h' !! l)
  | Throw _ => True
  end.

(** The heap after [new Query(...)] has added [q]. *)
Definition alloc (h : Heap) (q : Query) : Heap :=
  mkHeap (queries h ++ [q]) (registrations h).

(** The instance a builder makes of its receiver [q] and new parameters. *)
Definition rebuilt (q : Query) (p : QueryParams) (orderByCalled : bool) : Query :=
  mkQuery (repo_ (database q)) (database q) (path q) p orderByCalled.

(** A positive integer, as a JavaScript value. *)
Definition positive_integer (v : JsValue) : Prop :=
  ∃ k : Z, (0 < k)%Z ∧ v = JNumber (Finite (Q2Qc (inject_Z k))).

(** The identifier [queryIdentifier] computes from the parameters. *)
Definition identifier_of (p : QueryParams) : string :=
  let id := ObjectToUniqueKey (queryParamsGetQueryObject p) in
  if bool_decide (id = "{}") then "default" else id.

(** The four [orderBy*] methods. *)
Definition is_orderBy (t : Transformation) : bool :=
  match t with
  | OrderByChild | OrderByKey | OrderByPriority | OrderByValue => true
  | _ => false
  end.

(** The four methods that set one bound. *)
Definition is_range (t : Transformation) : bool :=
  match t with
  | StartAt | StartAfter | EndAt | EndBefore => true
  | _ => false
  end.

(** The index an [orderBy*] call selects. *)
Definition orderBy_index (t : Transformation) (args : list JsValue) : Index :=
  match t with
  | OrderByKey => KEY_INDEX
  | OrderByPriority => PRIORITY_INDEX
  | OrderByValue => VALUE_INDEX
  | _ => PathIndex (Path_new (arg 0 args))
  end.

(** The arguments of an [orderBy*] call are valid: their count is, and the
    path of [orderByChild] is none of the three reserved words, passes
    [validatePathString] and is not empty. *)
Definition orderBy_args_valid (t : Transformation) (args : list JsValue) : Prop :=
  match t with
  | OrderByChild =>
      validateArgCount "Query.orderByChild" 1 1 (length args) = Ok ()
      ∧ strict_eq (arg 0 args) (JString "$key") = false
      ∧ strict_eq (arg 0 args) (JString "$priority") = false
      ∧ strict_eq (arg 0 args) (JString "$value") = false
      ∧ validatePathString "Query.orderByChild" 1 (arg 0 args) false = Ok ()
      ∧ pathIsEmpty (Path_new (arg 0 args)) = false
  | OrderByKey => validateArgCount "Query.orderByKey" 0 0 (length args) = Ok ()
  | OrderByPriority => validateArgCount "Query.orderByPriority" 0 0 (length args) = Ok ()
  | OrderByValue => validateArgCount "Query.orderByValue" 0 0 (length args) = Ok ()
  | _ => False
  end.

(** The bound a range method sets is already there. *)
Definition has_bound (t : Transformation) (p : QueryParams) : bool :=
  match t with
  | StartAt | StartAfter => hasStart p
  | _ => hasEnd p
  end.

(** The parameters a range method builds from those of its receiver. *)
Definition range_params (t : Transformation) (p : QueryParams)
    (value name : JsValue) : QueryParams :=
  match t with
  | StartAt => queryParamsStartAt p value name
  | StartAfter => queryParamsStartAfter p value name
  | EndAt => queryParamsEndAt p value name
  | _ => queryParamsEndBefore p value name
  end.

(** The arguments of a range method pass its three argument checks. *)
Definition range_args_valid (t : Transformation) (q : Query) (args : list JsValue)
    : Prop :=
  let value := arg_or_null 0 args in
  let name := arg 1 args in
  match t with
  | StartAt =>
      validateArgCount "Query.startAt" 0 2 (length args) = Ok ()
      ∧ validateFirebaseDataArg "Query.startAt" 1 value (path q) true = Ok ()
      ∧ validateKey "Query.startAt" 2 name true = Ok ()
  | StartAfter =>
      validateArgCount "Query.startAfter" 0 2 (length args) = Ok ()
      ∧ validateFirebaseDataArg "Query.startAfter" 1 value (path q) false = Ok ()
      ∧ validateKey "Query.startAfter" 2 name true = Ok ()
  | EndAt =>
      validateArgCount "Query.endAt" 0 2 (length args) = Ok ()
      ∧ validateFirebaseDataArg "Query.endAt" 1 value (path q) true = Ok ()
      ∧ validateKey "Query.endAt" 2 name true = Ok ()
  | EndBefore =>
      validateArgCount "Query.endBefore" 0 2 (length args) = Ok ()
      ∧ validateFirebaseDataArg "Query.endBefore" 1 value (path q) false = Ok ()
      ∧ validateKey "Query.endBefore" 2 name true = Ok ()
  | _ => False
  end.

(** The parameters a range- or order-constructing call builds and hands to
    [validateQueryEndpoints_], in the order it builds them; [equalTo]
    builds those of its [startAt] and then those of its [endAt]. *)
Definition built_params (t : Transformation) (q : Query) (args : list JsValue)
    : list QueryParams :=
  let p := queryParams_ q in
  let value := arg_or_null 0 args in
  let name := arg 1 args in
  if is_orderBy t then [queryParamsOrderBy p (orderBy_index t args)]
  else if is_range t then [range_params t p value name]
  else
    match t with
    | EqualTo =>
        [queryParamsStartAt p value name;
         queryParamsEndAt (queryParamsStartAt p value name) value name]
    | _ => []
    end.

(** A start bound the selected index does not admit: under the key index
    a name that is not the default one or a value that is no string, under
    the priority index a non-null value that is no valid priority, under
    the value index or a child index a non-null object. *)
Definition bad_start (p : QueryParams) : Prop :=
  hasStart p = true ∧
  let v := getIndexStartValue p in
  match getIndex p with
  | KEY_INDEX => getIndexStartName p ≠ MIN_NAME ∨ typeof v ≠ "string"
  | PRIORITY_INDEX => loose_eq_null v = false ∧ isValidPriority v = false
  | VALUE_INDEX | PathIndex _ => loose_eq_null v = false ∧ typeof v = "object"
  end.

(** An end bound the selected index does not admit. *)
Definition bad_end (p : QueryParams) : Prop :=
  hasEnd p = true ∧
  let v := getIndexEndValue p in
  match getIndex p with
  | KEY_INDEX => getIndexEndName p ≠ MAX_NAME ∨ typeof v ≠ "string"
  | PRIORITY_INDEX => loose_eq_null v = false ∧ isValidPriority v = false
  | VALUE_INDEX | PathIndex _ => loose_eq_null v = false ∧ typeof v = "object"
  end.

(** The two methods that set a limit. *)
Definition is_limit (t : Transformation) : bool :=
  match t with
  | LimitToFirst | LimitToLast => true
  | _ => false
  end.

(** The parameters a limit method builds from those of its receiver. *)
Definition limit_params (t : Transformation) (p : QueryParams) (n : JsNumber)
    : QueryParams :=
  match t with
  | LimitToFirst => queryParamsLimitToFirst p n
  | _ => queryParamsLimitToLast p n
  end.

(** The argument count of a limit method is valid. *)
Definition limit_args_valid (t : Transformation) (args : list JsValue) : Prop :=
  match t with
  | LimitToFirst => validateArgCount "Query.limitToFirst" 1 1 (length args) = Ok ()
  | LimitToLast => validateArgCount "Query.limitToLast" 1 1 (length args) = Ok ()
  | _ => False
  end.

(** The registration [on] hands to the repo. *)
Definition registration_of (eventType callback : JsValue) (ret : CancelAndContext)
    : EventRegistration :=
  if strict_eq eventType (JString "value") then
    ValueEventRegistration callback (js_or (cancel ret) JNull) (js_or (context ret) JNull)
  else ChildEventRegistration [(eventType, callback)] (cancel ret) (context ret).

End Vocabulary.

(** ** Chains of transformations *)

Section Chains.
Context `{QueryParamsModule} `{!Imports}.

(** [q.m1(args1).m2(args2)...]: each method runs on the Query the one
    before it returned, and a throw ends the chain. *)
Fixpoint chain (calls : list (Transformation * list JsValue)) (this : loc) : M loc :=
  match calls with
  | [] => mret this
  | (t, args) :: rest => next ← call t this args; chain rest next
  end.

(** The two range methods that set the start bound. *)
Definition sets_start (t : Transformation) : bool :=
  match t with
  | StartAt | StartAfter => true
  | _ => false
  end.

End Chains.

(** ** Removing listeners *)

Section Off.
Context `{QueryParamsModule} `{!Imports}.

(** [repoRemoveEventCallbackForQuery(repo, query, eventRegistration)] of
    [core/Repo], whose source is not part of this development; the
    registration may be [null]. *)
Variable repoRemoveEventCallbackForQuery :
  Repo → loc → option EventRegistration → M unit.

(** [off(eventType?, callback?, context?)]. The [callbacks] of the child
    registration it builds are [null] when no callback is given: the empty
    list here, for an object without keys is never built. *)
Definition off (this : loc) (args : list JsValue) : M unit :=
  let eventType := arg 0 args in
  let callback := arg 1 args in
  let context_ := arg 2 args in
  lift (validateArgCount "Query.off" 0 3 (length args));;
  lift (validateEventType "Query.off" 1 eventType true);;
  lift (validateCallback "Query.off" 2 callback true);;
  lift (validateContextObject "Query.off" 3 context_ true);;
  let container :=
    if strict_eq eventType (JString "value") then
      let valueCallback := js_or callback JNull in
      Some (ValueEventRegistration valueCallback JNull (js_or context_ JNull))
    else if truthy eventType then
      let callbacks := if truthy callback then [(eventType, callback)] else [] in
      Some (ChildEventRegistration callbacks JNull (js_or context_ JNull))
    else None in
  q ← this_ this;
  repoRemoveEventCallbackForQuery (repo q) this container.

(** A registration without its cancel callback. *)
Definition without_cancel (r : EventRegistration) : EventRegistration :=
  match r with
  | ValueEventRegistration callback _ context_ =>
      ValueEventRegistration callback JNull context_
  | ChildEventRegistration callbacks _ context_ =>
      ChildEventRegistration callbacks JNull context_
  end.

End Off.

(** ** A model of the imported modules

    One implementation of the interfaces above, on which the statements
    are run at concrete inputs. *)

Global Instance JsNumber_countable : Countable JsNumber :=
  inj_countable'
    (λ n, match n with
          | NaN => inl 0 | PosInfinity => inl 1 | NegInfinity => inl 2
          | Finite q => inr q
          end)
    (λ s, match s with
          | inl 0 => NaN | inl 1 => PosInfinity | inl _ => NegInfinity
          | inr q => Finite q
          end)
    (λ n, match n with
          | NaN | PosInfinity | NegInfinity | Finite _ => eq_refl
          end).

Global Instance JsValue_countable : Countable JsValue :=
  inj_countable'
    (λ v, match v with
          | JUndefined => inl (inl 0)
          | JNull => inl (inl 1)
          | JBoolean b => inl (inr b)
          | JNumber n => inr (inl (inl n))
          | JString s => inr (inl (inr s))
          | JObject o => inr (inr (inl o))
          | JFunction f => inr (inr (inr (inl f)))
          | JQuery l => inr (inr (inr (inr l)))
          end)
    (λ s, match s with
          | inl (inl 0) => JUndefined
          | inl (inl _) => JNull
          | inl (inr b) => JBoolean b
          | inr (inl (inl n)) => JNumber n
          | inr (inl (inr s)) => JString s
          | inr (inr (inl o)) => JObject o
          | inr (inr (inr (inl f))) => JFunction f
          | inr (inr (inr (inr l))) => JQuery l
          end)
    (λ v, match v with
          | JUndefined | JNull | JBoolean _ | JNumber _ | JString _
          | JObject _ | JFunction _ | JQuery _ => eq_refl
          end).

Module Model.

(** Modelled from the spec: [core/util/Path] is absent from the sources. A
    query has a location path; here a path is the list of its keys, parsed
    from a string by cutting it at every slash, and its URL form leaves the
    keys as they are. *)
Definition Path : Type := list string.

Fixpoint split_path (s : string) (cur : string) : Path :=
  match s with
  | EmptyString => if bool_decide (cur = "") then [] else [cur]
  | String c s' =>
      if bool_decide (c = "/"%char) then
        app (if bool_decide (cur = "") then [] else [cur]) (split_path s' "")
      else split_path s' (cur +:+ String c EmptyString)
  end.

Definition Path_new (pathString : JsValue) : Path :=
  match pathString with
  | JString s => split_path s ""
  | _ => []
  end.

Definition pathIsEmpty (p : Path) : bool := bool_decide (p = []).

Definition pathEquals (a b : Path) : bool := bool_decide (a = b).

Definition pathToUrlEncodedString (p : Path) : string :=
  if pathIsEmpty p then "/" else String.concat "" ((λ key, "/" +:+ key) <$> p).

#[export] Instance path_module : PathModule :=
  Build_PathModule Path Path_new pathIsEmpty pathEquals pathToUrlEncodedString.

(** Modelled from the spec: the constants [MIN_NAME] and [MAX_NAME] of
    [core/util/util] are absent from the sources; they are the names of the
    minimum and maximum sentinels an index builds its ranges from. *)
Definition MIN_NAME : string := "[MIN_NAME]".
Definition MAX_NAME : string := "[MAX_NAME]".

(** Which end of the ordered window a limit is counted from. *)
Inductive Anchor := AnchorFirst | AnchorLast.

(** A start or end bound: value + tie-break name, inclusive/exclusive. *)
Record Bound := mkBound {
  boundValue : JsValue;
  boundName : option string;
  boundInclusive : bool;
}.

(** Modelled from the spec: [core/view/QueryParams] is absent from the
    sources. QueryParams is immutable: the selected Index, an optional
    start bound, an optional end bound (same shape), an optional limit
    (count + anchor: first N or last N; a raw numeric limit has no
    anchor). *)
Record QueryParams := mkQueryParams {
  index_ : Index;
  start_ : option Bound;
  end_ : option Bound;
  limit_ : option (JsNumber * option Anchor);
}.

Definition hasStart (p : QueryParams) : bool := bool_decide (is_Some (start_ p)).
Definition hasEnd (p : QueryParams) : bool := bool_decide (is_Some (end_ p)).
Definition hasLimit (p : QueryParams) : bool := bool_decide (is_Some (limit_ p)).

Definition hasAnchoredLimit (p : QueryParams) : bool :=
  match limit_ p with
  | Some (_, Some _) => true
  | _ => false
  end.

Definition getIndex (p : QueryParams) : Index := index_ p.

Definition getIndexStartValue (p : QueryParams) : JsValue :=
  from_option boundValue JNull (start_ p).

Definition getIndexStartName (p : QueryParams) : string :=
  default MIN_NAME (start_ p ≫= boundName).

Definition getIndexEndValue (p : QueryParams) : JsValue :=
  from_option boundValue JNull (end_ p).

Definition getIndexEndName (p : QueryParams) : string :=
  default MAX_NAME (end_ p ≫= boundName).

(** The tie-break name of a bound: given when the argument is a string. *)
Definition tie_break (name : JsValue) : option string :=
  match name with
  | JString s => Some s
  | _ => None
  end.

(** Each transformation returns a new immutable value constructed from the
    old one plus a delta. *)
Definition queryParamsStartAt (p : QueryParams) (value name : JsValue) : QueryParams :=
  mkQueryParams (index_ p) (Some (mkBound value (tie_break name) true)) (end_ p) (limit_ p).

Definition queryParamsStartAfter (p : QueryParams) (value name : JsValue) : QueryParams :=
  mkQueryParams (index_ p) (Some (mkBound value (tie_break name) false)) (end_ p) (limit_ p).

Definition queryParamsEndAt (p : QueryParams) (value name : JsValue) : QueryParams :=
  mkQueryParams (index_ p) (start_ p) (Some (mkBound value (tie_break name) true)) (limit_ p).

Definition queryParamsEndBefore (p : QueryParams) (value name : JsValue) : QueryParams :=
  mkQueryParams (index_ p) (start_ p) (Some (mkBound value (tie_break name) false)) (limit_ p).

Definition queryParamsLimitToFirst (p : QueryParams) (limit : JsNumber) : QueryParams :=
  mkQueryParams (index_ p) (start_ p) (end_ p) (Some (limit, Some AnchorFirst)).

Definition queryParamsLimitToLast (p : QueryParams) (limit : JsNumber) : QueryParams :=
  mkQueryParams (index_ p) (start_ p) (end_ p) (Some (limit, Some AnchorLast)).

Definition queryParamsOrderBy (p : QueryParams) (index : Index) : QueryParams :=
  mkQueryParams index (start_ p) (end_ p) (limit_ p).

(** The parameters of a default query: no ordering/range/limit; it orders
    by key. *)
Definition defaultQueryParams : QueryParams :=
  mkQueryParams KEY_INDEX None None None.

Definition index_entry (i : Index) : gmap string JsValue :=
  match i with
  | KEY_INDEX => ∅
  | PRIORITY_INDEX => {[ "index" := JString ".priority" ]}
  | VALUE_INDEX => {[ "index" := JString ".value" ]}
  | PathIndex p => {[ "index" := JString (String.concat "/" p) ]}
  end.

Definition bound_entries (prefix : string) (b : option Bound) : gmap string JsValue :=
  match b with
  | None => ∅
  | Some b =>
      <[ prefix +:+ "Value" := boundValue b ]>
        (from_option (λ n, {[ prefix +:+ "Name" := JString n ]}) ∅ (boundName b)
         ∪ (if boundInclusive b then ∅ else {[ prefix +:+ "Exclusive" := JBoolean true ]}))
  end.

Definition limit_entries (l : option (JsNumber * option Anchor)) : gmap string JsValue :=
  match l with
  | None => ∅
  | Some (n, a) =>
      <[ "limit" := JNumber n ]>
        match a with
        | None => ∅
        | Some AnchorFirst => {[ "anchor" := JString "first" ]}
        | Some AnchorLast => {[ "anchor" := JString "last" ]}
        end
  end.

(** QueryParams canonicalizes to a deterministic mapping object ([{}] for
    the default query). *)
Definition queryParamsGetQueryObject (p : QueryParams) : gmap string JsValue :=
  bound_entries "start" (start_ p) ∪ bound_entries "end" (end_ p)
  ∪ limit_entries (limit_ p) ∪ index_entry (index_ p).

#[export] Instance query_params_module : QueryParamsModule :=
  Build_QueryParamsModule _ QueryParams hasStart hasEnd hasLimit hasAnchoredLimit
    getIndex getIndexStartValue getIndexStartName getIndexEndValue getIndexEndName
    queryParamsStartAt queryParamsStartAfter queryParamsEndAt queryParamsEndBefore
    queryParamsLimitToFirst queryParamsLimitToLast queryParamsOrderBy
    queryParamsGetQueryObject.

(** Modelled from the spec: [ObjectToUniqueKey] of [core/util/util] is
    absent from the sources. The parameter object is turned into a key that
    identifies it, with a deterministic key ordering; the empty object has
    the key [{}]. Here the key of another object is the number that encodes
    the object. *)
Definition ObjectToUniqueKey (obj : gmap string JsValue) : string :=
  "{" +:+ (if decide (obj = ∅) then "}" else "#" +:+ pretty (encode obj)).

(** Modelled from the spec: [isValidPriority] of [core/util/validation] is
    absent from the sources. A valid priority type is null, number, or
    string. *)
Definition isValidPriority (priority : JsValue) : bool :=
  match priority with
  | JNull | JNumber _ | JString _ => true
  | _ => false
  end.

(** Modelled from the spec: the validators of [core/util/validation] and of
    [@firebase/util] are absent from the sources. Validation errors
    (argument-count/type mismatches) fail synchronously at the call that
    violates the contract; an optional argument may be left out. *)
Definition check (ok : bool) (fnName what : string) : Result unit :=
  if ok then Ok () else Throw (Error (fnName +:+ " failed: " +:+ what)).

Definition validateArgCount (fnName : string) (minCount maxCount argCount : nat)
    : Result unit :=
  check (bool_decide (minCount ≤ argCount ≤ maxCount)%nat) fnName
    "Was called with the wrong number of arguments.".

Definition errorPrefix (fnName : string) (argumentNumber : nat) (optional : bool)
    : string :=
  fnName +:+ " failed: argument " +:+ pretty argumentNumber +:+ " ".

(** The event types of the listener API. *)
Definition validateEventType (fnName : string) (argumentNumber : nat)
    (eventType : JsValue) (optional : bool) : Result unit :=
  check
    ((optional && strict_eq eventType JUndefined)
     || bool_decide (eventType ∈
          JString <$> ["value"; "child_added"; "child_removed"; "child_changed";
                       "child_moved"]))
    fnName "the event type is not one of the five event types.".

Definition validateCallback (fnName : string) (argumentNumber : nat)
    (callback : JsValue) (optional : bool) : Result unit :=
  check
    ((optional && negb (truthy callback)) || bool_decide (typeof callback = "function"))
    fnName "the callback must be a valid function.".

Definition validateContextObject (fnName : string) (argumentNumber : nat)
    (context : JsValue) (optional : bool) : Result unit :=
  check
    ((optional && negb (truthy context))
     || (bool_decide (typeof context = "object") && negb (strict_eq context JNull)))
    fnName "the context must be a valid context object.".

(** A key is a non-empty string, and none of the two sentinel names. *)
Definition validateKey (fnName : string) (argumentNumber : nat) (key : JsValue)
    (optional : bool) : Result unit :=
  check
    ((optional && strict_eq key JUndefined)
     || match key with
        | JString s =>
            negb (bool_decide (s = "")) && negb (bool_decide (s = MIN_NAME))
            && negb (bool_decide (s = MAX_NAME))
        | _ => false
        end)
    fnName "the key must be a non-empty string.".

Definition validatePathString (fnName : string) (argumentNumber : nat)
    (pathString : JsValue) (optional : bool) : Result unit :=
  check
    ((optional && strict_eq pathString JUndefined)
     || match pathString with
        | JString s => negb (bool_decide (s = ""))
        | _ => false
        end)
    fnName "the path must be a non-empty string.".

(** Data is a primitive or an object; [undefined], a function, [NaN] and
    the infinities are no data. *)
Definition validateFirebaseDataArg (fnName : string) (argumentNumber : nat)
    (data : JsValue) (path : Path) (optional : bool) : Result unit :=
  check
    ((optional && strict_eq data JUndefined)
     || match data with
        | JUndefined | JFunction _ => false
        | JNumber (Finite _) => true
        | JNumber _ => false
        | _ => true
        end)
    fnName "the first argument contains an invalid value.".

(** Modelled from the spec: [core/Repo] and [./Database] are absent from
    the sources. A query holds a resolved repo/connection handle, the remote
    endpoint; here a repo is the number that identifies it, and a database
    holds its repo. *)
Definition Repo : Type := nat.

Definition Repo_toString (repo : Repo) : string :=
  "https://repo-" +:+ pretty repo +:+ ".example.com".

Record Database := mkDatabase { repo_ : Repo }.

#[export] Instance imports : Imports :=
  Build_Imports _ MIN_NAME MAX_NAME ObjectToUniqueKey
    isValidPriority validateEventType validateFirebaseDataArg validateKey
    validatePathString
    errorPrefix validateArgCount validateCallback validateContextObject
    Repo _ Repo_toString Database repo_.

(** *** Sample values *)

Definition num (z : Z) : JsValue := JNumber (Finite (Q2Qc (inject_Z z))).

Definition sampleDatabase : Database := mkDatabase 7.

Definition query_with (p : QueryParams) (orderByCalled : bool) : Query :=
  mkQuery 7 sampleDatabase ["rooms"%string] p orderByCalled.

(** The query of a plain reference. *)
Definition plainQuery : Query := query_with defaultQueryParams false.

(** No [orderBy*] call was made; the priority index is selected and the
    range starts at the number 5. *)
Definition fromFive : Query :=
  query_with
    (mkQueryParams PRIORITY_INDEX (Some (mkBound (num 5) None true)) None None)
    false.

(** An end bound together with a raw numeric limit. *)
Definition rawLimitToFive : Query :=
  query_with
    (mkQueryParams PRIORITY_INDEX None (Some (mkBound (num 5) None true))
       (Some (Finite (Q2Qc 1), None)))
    false.

(** The first child only. *)
Definition firstOnly : Query :=
  query_with (queryParamsLimitToFirst defaultQueryParams (Finite (Q2Qc 1))) false.

(** The priority index was selected by [orderByPriority]. *)
Definition byPriority : Query :=
  query_with (mkQueryParams PRIORITY_INDEX None None None) true.

(** An end bound together with a limit anchored to the first child. *)
Definition firstToFive : Query :=
  query_with
    (mkQueryParams PRIORITY_INDEX None (Some (mkBound (num 5) None true))
       (Some (Finite (Q2Qc 1), Some AnchorFirst)))
    false.

Definition heap_of (qs : list Query) : Heap := mkHeap qs [].

(** A sample of [repoRemoveEventCallbackForQuery], for the statements at
    sample queries: the repo forgets every listener of the query. *)
Definition forgetListeners (repo : Repo) (query : loc)
    (eventRegistration : option EventRegistration) : M unit := λ h,
  (mkHeap (queries h) (filter (λ r, r.1.2 ≠ query) (registrations h)), Ok ()).

End Model.

(** * Properties *)

Section Properties.
Context `{QueryParamsModule} `{!Imports}.
Local Open Scope list_scope.
Local Arguments String.append : simpl never.

Implicit Types (h : Heap) (q : Query) (this : loc) (args : list JsValue).
Implicit Types (p : QueryParams) (t : Transformation).

(** Running a method body: the monad is unfolded, the receiver is read,
    and every check is split into its two outcomes. *)
Ltac unfold_M :=
  unfold validateNoPreviousOrderByCall_, queryIdentifier, queryObject,
    instanceof_Query in *;
  unfold mbind, mret, M_bind, M_ret, lift, throw, this_, new_Query in *.

Ltac exec :=
  unfold_M; simpl in *;
  repeat (simplify_eq/=;
          match goal with
          | u : () |- _ => destruct u
          | H : bool_decide _ = true |- _ => apply bool_decide_eq_true in H
          | H : bool_decide _ = false |- _ => apply bool_decide_eq_false in H
          | H : queries ?h !! ?l = Some _ |- context [queries ?h !! ?l] => rewrite H
          | H : queries ?h !! ?l = Some _, H' : context [queries ?h !! ?l] |- _ =>
              rewrite H in H'
          | _ => case_match
          end);
  simplify_eq/=; try done.

(** ** The heap under a transformation *)

Lemma extends_refl h : extends h h.
Proof. split; [exists []; by rewrite app_nil_r | done]. Qed.

Lemma extends_trans h1 h2 h3 : extends h1 h2 → extends h2 h3 → extends h1 h3.
Proof.
  intros [[n1 E1] R1] [[n2 E2] R2]. split; [|congruence].
  exists (n1 ++ n2). by rewrite E2, E1, app_assoc.
Qed.

Lemma extends_lookup h h' l q :
  extends h h' → queries h !! l = Some q → queries h' !! l = Some q.
Proof. intros [[new ->] _] Hl. by apply lookup_app_l_Some. Qed.

Lemma alloc_extends h x :
  extends h (alloc h x)
  ∧ queries h !! length (queries h) = None
  ∧ is_Some (queries (alloc h x) !! length (queries h)).
Proof.
  split; [split; simpl; eauto|]. split.
  - apply lookup_ge_None. lia.
  - apply lookup_lt_is_Some. simpl. rewrite length_app. simpl. lia.
Qed.

Lemma alloc_lookup_new h x : queries (alloc h x) !! length (queries h) = Some x.
Proof. simpl. by rewrite lookup_app_r, Nat.sub_diag by lia. Qed.

Lemma alloc_lookup_old h x l q :
  queries h !! l = Some q → queries (alloc h x) !! l = Some q.
Proof. intros. simpl. by apply lookup_app_l_Some. Qed.

Lemma fresh_result_trans h1 h2 h3 r :
  extends h1 h2 → fresh_result h2 h3 r → fresh_result h1 h3 r.
Proof.
  intros [[new E] _]. destruct r as [l|]; [|done]. intros [Hn Hs]. split; [|done].
  rewrite E in Hn. apply lookup_ge_None in Hn. apply lookup_ge_None.
  rewrite length_app in Hn. lia.
Qed.

(** A builder other than [equalTo] throws on the heap it was given, or
    returns what [new Query] returns. *)
Ltac frame_direct :=
  intros Hcall; exec;
  first [ by split; [apply extends_refl|] | apply alloc_extends ].

Lemma limitToFirst_frame this args h h' r :
  limitToFirst this args h = (h', r) → extends h h' ∧ fresh_result h h' r.
Proof. unfold limitToFirst. frame_direct. Qed.

Lemma limitToLast_frame this args h h' r :
  limitToLast this args h = (h', r) → extends h h' ∧ fresh_result h h' r.
Proof. unfold limitToLast. frame_direct. Qed.

Lemma orderByChild_frame this args h h' r :
  orderByChild this args h = (h', r) → extends h h' ∧ fresh_result h h' r.
Proof. unfold orderByChild. frame_direct. Qed.

Lemma orderByKey_frame this args h h' r :
  orderByKey this args h = (h', r) → extends h h' ∧ fresh_result h h' r.
Proof. unfold orderByKey. frame_direct. Qed.

Lemma orderByPriority_frame this args h h' r :
  orderByPriority this args h = (h', r) → extends h h' ∧ fresh_result h h' r.
Proof. unfold orderByPriority. frame_direct. Qed.

Lemma orderByValue_frame this args h h' r :
  orderByValue this args h = (h', r) → extends h h' ∧ fresh_result h h' r.
Proof. unfold orderByValue. frame_direct. Qed.

Lemma startAt_frame this args h h' r :
  startAt this args h = (h', r) → extends h h' ∧ fresh_result h h' r.
Proof. unfold startAt. frame_direct. Qed.

Lemma startAfter_frame this args h h' r :
  startAfter this args h = (h', r) → extends h h' ∧ fresh_result h h' r.
Proof. unfold startAfter. frame_direct. Qed.

Lemma endAt_frame this args h h' r :
  endAt this args h = (h', r) → extends h h' ∧ fresh_result h h' r.
Proof. unfold endAt. frame_direct. Qed.

Lemma endBefore_frame this args h h' r :
  endBefore this args h = (h', r) → extends h h' ∧ fresh_result h h' r.
Proof. unfold endBefore. frame_direct. Qed.

(** [equalTo] runs [startAt] and then [endAt] on what it returned. *)
Lemma equalTo_frame this args h h' r :
  equalTo this args h = (h', r) → extends h h' ∧ fresh_result h h' r.
Proof.
  unfold equalTo. unfold mbind at 1 2 3 4, M_bind, lift, throw, this_.
  destruct (queries h !! this) as [q|]; simpl;
    [|intros [= <- <-]; split; [apply extends_refl|done]].
  repeat (case_match; simpl;
          try (intros [= <- <-]; split; [apply extends_refl|done])).
  unfold mbind, M_bind.
  destruct (startAt this _ h) as [h1 [started|e]] eqn:Hs; simpl.
  - intros He. apply startAt_frame in Hs as [Hx1 _].
    apply endAt_frame in He as [Hx2 Hf]. split; [by eapply extends_trans|].
    by eapply fresh_result_trans.
  - intros [= <- <-]. apply startAt_frame in Hs as [Hx1 _]. by split.
Qed.

Lemma call_frame t this args h h' r :
  call t this args h = (h', r) → extends h h' ∧ fresh_result h h' r.
Proof.
  destruct t; simpl;
    eauto using orderByChild_frame, orderByKey_frame, orderByPriority_frame,
      orderByValue_frame, startAt_frame, startAfter_frame, endAt_frame,
      endBefore_frame, equalTo_frame, limitToFirst_frame, limitToLast_frame.
Qed.

(** C2. A transformation method never mutates its receiver: after the
    call, whether it returned or threw, the receiver holds the fields
    (database, path, queryParams_, orderByCalled_) it held before, and so
    does every other instance; a call that returns returns the address of
    a newly constructed Query, one that was not on the heap before. *)
Theorem transformation_keeps_receiver t h this q args h' r :
  queries h !! this = Some q →
  call t this args h = (h', r) →
  queries h' !! this = Some q
  ∧ (∀ l o, queries h !! l = Some o → queries h' !! l = Some o)
  ∧ match r with
    | Ok l' => queries h !! l' = None ∧ is_Some (queries h' !! l') ∧ l' ≠ this
    | Throw _ => True
    end.
Proof.
  intros Hthis Hcall. apply call_frame in Hcall as [Hext Hfresh].
  split; [by eapply extends_lookup|]. split; [intros; by eapply extends_lookup|].
  destruct r as [l'|]; [|done]. destruct Hfresh as [Hnone Hsome].
  repeat split; [done..|]. intros ->. congruence.
Qed.

(** ** The [orderBy*] methods *)

Lemma orderBy_called_throws t h this q args :
  is_orderBy t = true →
  queries h !! this = Some q →
  orderByCalled_ q = true →
  ∃ e, call t this args h = (h, Throw e).
Proof.
  intros Ht Hthis Hcalled.
  destruct t; try done; simpl;
    unfold orderByChild, orderByKey, orderByPriority, orderByValue;
    exec; eauto.
Qed.

Lemma orderBy_returns t h this q args :
  is_orderBy t = true →
  queries h !! this = Some q →
  orderByCalled_ q = false →
  orderBy_args_valid t args →
  validateQueryEndpoints_ (queryParamsOrderBy (queryParams_ q) (orderBy_index t args))
    = Ok () →
  call t this args h =
    (alloc h (rebuilt q (queryParamsOrderBy (queryParams_ q) (orderBy_index t args)) true),
     Ok (length (queries h))).
Proof.
  intros Ht Hthis Hcalled Hargs Hends.
  destruct t; try done; simpl in *;
    unfold orderByChild, orderByKey, orderByPriority, orderByValue;
    unfold_M; rewrite Hthis; simpl.
  - destruct Hargs as (-> & -> & -> & -> & -> & ->). simpl.
    rewrite Hthis. simpl. rewrite Hcalled. simpl. by rewrite Hends.
  - rewrite Hargs. simpl. rewrite Hthis. simpl. rewrite Hcalled. simpl.
    by rewrite Hends.
  - rewrite Hargs. simpl. rewrite Hthis. simpl. rewrite Hcalled. simpl.
    by rewrite Hends.
  - rewrite Hargs. simpl. rewrite Hthis. simpl. rewrite Hcalled. simpl.
    by rewrite Hends.
Qed.

Lemma orderBy_endpoints_throw t h this q args e :
  is_orderBy t = true →
  queries h !! this = Some q →
  validateQueryEndpoints_ (queryParamsOrderBy (queryParams_ q) (orderBy_index t args))
    = Throw e →
  ∃ e', call t this args h = (h, Throw e').
Proof.
  intros Ht Hthis Hends.
  destruct t; try done; simpl in *;
    unfold orderByChild, orderByKey, orderByPriority, orderByValue;
    exec; eauto.
Qed.

(** ** The range methods *)

Lemma range_bound_set_throws t h this q args :
  is_range t = true →
  queries h !! this = Some q →
  has_bound t (queryParams_ q) = true →
  ∃ e, call t this args h = (h, Throw e).
Proof.
  intros Ht Hthis Hbound.
  destruct t; try done; simpl in *;
    unfold startAt, startAfter, endAt, endBefore; exec; eauto.
Qed.

Lemma range_returns t h this q args :
  is_range t = true →
  queries h !! this = Some q →
  has_bound t (queryParams_ q) = false →
  range_args_valid t q args →
  let p' := range_params t (queryParams_ q) (arg_or_null 0 args) (arg 1 args) in
  validateLimit_ p' = Ok () →
  validateQueryEndpoints_ p' = Ok () →
  call t this args h = (alloc h (rebuilt q p' (orderByCalled_ q)), Ok (length (queries h))).
Proof.
  intros Ht Hthis Hbound Hargs p' Hlimit Hends. subst p'.
  destruct t; try done; simpl in *;
    unfold startAt, startAfter, endAt, endBefore;
    unfold_M; rewrite Hthis; simpl;
    destruct Hargs as (-> & -> & ->); simpl;
    rewrite Hlimit; simpl; rewrite Hends; simpl; rewrite Hbound;
    by repeat case_match.
Qed.

Lemma range_limit_throws t h this q args e :
  is_range t = true →
  queries h !! this = Some q →
  validateLimit_ (range_params t (queryParams_ q) (arg_or_null 0 args) (arg 1 args))
    = Throw e →
  ∃ e', call t this args h = (h, Throw e').
Proof.
  intros Ht Hthis Hlimit.
  destruct t; try done; simpl in *;
    unfold startAt, startAfter, endAt, endBefore; exec; eauto.
Qed.

Lemma range_endpoints_throw t h this q args e :
  is_range t = true →
  queries h !! this = Some q →
  validateQueryEndpoints_
    (range_params t (queryParams_ q) (arg_or_null 0 args) (arg 1 args)) = Throw e →
  ∃ e', call t this args h = (h, Throw e').
Proof.
  intros Ht Hthis Hends.
  destruct t; try done; simpl in *;
    unfold startAt, startAfter, endAt, endBefore; exec; eauto.
Qed.

(** What a range method that returned has checked and made. *)
Lemma range_returned t h this q args h' l :
  is_range t = true →
  queries h !! this = Some q →
  call t this args h = (h', Ok l) →
  let p' := range_params t (queryParams_ q) (arg_or_null 0 args) (arg 1 args) in
  h' = alloc h (rebuilt q p' (orderByCalled_ q)) ∧ l = length (queries h)
  ∧ has_bound t (queryParams_ q) = false
  ∧ validateLimit_ p' = Ok () ∧ validateQueryEndpoints_ p' = Ok ().
Proof.
  intros Ht Hthis Hcall.
  destruct t; try done; simpl in *;
    unfold startAt, startAfter, endAt, endBefore in Hcall; exec; done.
Qed.

(** ** The static validators *)

Lemma validateLimit_throws p :
  hasStart p = true → hasEnd p = true → hasLimit p = true →
  hasAnchoredLimit p = false →
  ∃ e, validateLimit_ p = Throw e.
Proof. intros Hs He Hl Ha. unfold validateLimit_. rewrite Hs, He, Hl, Ha. eauto. Qed.

Lemma validateLimit_anchored p :
  hasAnchoredLimit p = true → validateLimit_ p = Ok ().
Proof.
  intros Ha. unfold validateLimit_. rewrite Ha.
  by rewrite andb_false_r.
Qed.

Lemma validateLimit_Ok p :
  validateLimit_ p = Ok () ↔
  hasStart p && hasEnd p && hasLimit p && negb (hasAnchoredLimit p) = false.
Proof. unfold validateLimit_. by case_match. Qed.

Lemma validateQueryEndpoints_bad p :
  bad_start p ∨ bad_end p → ∃ e, validateQueryEndpoints_ p = Throw e.
Proof.
  unfold bad_start, bad_end, validateQueryEndpoints_, assert.
  intros [[Hs Hbad]|[He Hbad]]; rewrite ?Hs, ?He;
    destruct (getIndex p);
    cbn [is_KEY_INDEX is_PRIORITY_INDEX is_VALUE_INDEX instanceof_PathIndex
         orb mbind Result_bind] in *.
  all: try (destruct Hbad as [-> Hbad]; rewrite ?Hbad;
            try rewrite (bool_decide_eq_true_2 _ Hbad);
            cbn [negb andb orb]; rewrite ?orb_true_r; by eauto).
  - destruct Hbad as [Hname|Hty].
    + rewrite (bool_decide_eq_false_2 _ Hname). cbn. eauto.
    + rewrite (bool_decide_eq_false_2 _ Hty).
      destruct (bool_decide (_ = MIN_NAME)); cbn; eauto.
  - destruct (hasStart p); cbn [mbind Result_bind];
      repeat (case_bool_decide; cbn [negb mbind Result_bind]);
      eauto; naive_solver.
Qed.

Lemma validateQueryEndpoints_good p :
  ¬ bad_start p → ¬ bad_end p → validateQueryEndpoints_ p = Ok ().
Proof.
  unfold bad_start, bad_end, validateQueryEndpoints_, assert.
  intros Hs He.
  destruct (getIndex p);
    cbn [is_KEY_INDEX is_PRIORITY_INDEX is_VALUE_INDEX instanceof_PathIndex
         orb mbind Result_bind] in *;
    destruct (hasStart p), (hasEnd p);
    cbn [mbind Result_bind] in *.
  all: repeat (case_bool_decide; cbn [negb mbind Result_bind andb orb]).
  all: try done.
  all: try (exfalso; (apply Hs; by auto) || (apply He; by auto)).
  all: repeat match goal with
         | |- context [loose_eq_null ?v] => destruct (loose_eq_null v) eqn:?
         | |- context [isValidPriority ?v] => destruct (isValidPriority v) eqn:?
         end; cbn [negb andb orb]; try done.
  all: exfalso; (apply Hs; by auto) || (apply He; by auto).
Qed.

(** The assertion on the index in [validateQueryEndpoints_] never fails. *)
Lemma validateQueryEndpoints_no_assertion p m :
  validateQueryEndpoints_ p ≠ Throw (AssertionError m).
Proof.
  unfold validateQueryEndpoints_, assert.
  destruct (getIndex p);
    cbn [is_KEY_INDEX is_PRIORITY_INDEX is_VALUE_INDEX instanceof_PathIndex
         orb mbind Result_bind];
    repeat (case_match; cbn [mbind Result_bind]); done.
Qed.

(** ** The limit methods *)

Lemma Qfloor_Q2Qc_Z (k : Z) : Qfloor (Q2Qc (inject_Z k)) = k.
Proof.
  simpl. rewrite (Qfloor_comp _ (inject_Z k)) by apply Qred_correct.
  apply Qfloor_Z.
Qed.

Lemma Q2Qc_Z_le_0 (k : Z) : (Q2Qc (inject_Z k) ≤ 0)%Qc ↔ (k ≤ 0)%Z.
Proof.
  unfold Qcle. simpl. rewrite Qred_correct.
  rewrite (Zle_Qle k 0). reflexivity.
Qed.

(** The numbers that pass the check of [limitToFirst] and [limitToLast]:
    the positive integers, and [Infinity]. *)
Lemma limit_check_passes n :
  negb (number_strict_eq (Math_floor n) n) || number_le_zero n = false
  ↔ positive_integer (JNumber n) ∨ n = PosInfinity.
Proof.
  unfold positive_integer. split.
  - destruct n as [| | |q]; simpl; try done; [by right|].
    intros [Hfloor Hpos]%orb_false_iff. left.
    apply negb_false_iff, bool_decide_eq_true in Hfloor.
    apply bool_decide_eq_false in Hpos.
    exists (Qfloor q). injection Hfloor as Hq. split; [|by rewrite Hq].
    destruct (decide (0 < Qfloor q)%Z) as [|Hle]; [done|].
    exfalso. apply Hpos. rewrite <- Hq. apply Q2Qc_Z_le_0. lia.
  - intros [(k & Hk & [= ->])| ->]; [|done].
    unfold Math_floor, number_le_zero, number_strict_eq.
    rewrite Qfloor_Q2Qc_Z. rewrite bool_decide_eq_true_2 by done.
    apply bool_decide_eq_false. rewrite Q2Qc_Z_le_0. lia.
Qed.

Lemma Infinity_no_integer : ¬ positive_integer (JNumber PosInfinity).
Proof. by intros (k & _ & ?). Qed.

Lemma limit_rejected_throws t h this q args :
  is_limit t = true →
  queries h !! this = Some q →
  ¬ positive_integer (arg 0 args) →
  arg 0 args ≠ JNumber PosInfinity →
  ∃ e, call t this args h = (h, Throw e).
Proof.
  intros Ht Hthis Hint Hinf.
  destruct t; try done; simpl; unfold limitToFirst, limitToLast;
    exec; eauto; exfalso;
    match goal with
    | H : _ || _ = false |- _ => apply limit_check_passes in H as [?| ->]
    end; congruence.
Qed.

Lemma limit_set_throws t h this q args :
  is_limit t = true →
  queries h !! this = Some q →
  hasLimit (queryParams_ q) = true →
  ∃ e, call t this args h = (h, Throw e).
Proof.
  intros Ht Hthis Hlimit.
  destruct t; try done; simpl; unfold limitToFirst, limitToLast; exec; eauto.
Qed.

Lemma limit_returns t h this q args n :
  is_limit t = true →
  queries h !! this = Some q →
  limit_args_valid t args →
  arg 0 args = JNumber n →
  positive_integer (JNumber n) ∨ n = PosInfinity →
  hasLimit (queryParams_ q) = false →
  call t this args h =
    (alloc h (rebuilt q (limit_params t (queryParams_ q) n) (orderByCalled_ q)),
     Ok (length (queries h))).
Proof.
  intros Ht Hthis Hargs Harg Hn%limit_check_passes Hlimit.
  destruct t; try done; simpl in *; unfold limitToFirst, limitToLast;
    unfold_M; rewrite Hthis; simpl; rewrite Hargs, Harg; simpl;
    by rewrite Hn, Hlimit.
Qed.

(** ** [equalTo] *)

Lemma equalTo_bound_set_throws h this q args :
  queries h !! this = Some q →
  hasStart (queryParams_ q) = true ∨ hasEnd (queryParams_ q) = true →
  ∃ e, equalTo this args h = (h, Throw e).
Proof. intros Hthis [Hb|Hb]; unfold equalTo; exec; eauto. Qed.

Lemma equalTo_runs h this q args :
  queries h !! this = Some q →
  hasStart (queryParams_ q) = false →
  hasEnd (queryParams_ q) = false →
  validateArgCount "Query.equalTo" 1 2 (length args) = Ok () →
  validateFirebaseDataArg "Query.equalTo" 1 (arg 0 args) (path q) false = Ok () →
  validateKey "Query.equalTo" 2 (arg 1 args) true = Ok () →
  equalTo this args h =
    (started ← startAt this [arg 0 args; arg 1 args];
     endAt started [arg 0 args; arg 1 args]) h.
Proof.
  intros Hthis Hs He Hcount Hdata Hkey. unfold equalTo.
  unfold mbind at 1 2 3 4, M_bind, lift, this_. rewrite Hthis. simpl.
  by rewrite Hcount, Hdata, Hkey, Hs, He.
Qed.

(** ** [toString], [queryIdentifier] and [isEqual] *)

Lemma toString_runs h this q args :
  queries h !! this = Some q →
  validateArgCount "Query.toString" 0 0 (length args) = Ok () →
  toString this args h
    = (h, Ok (Repo_toString (repo q) +:+ pathToUrlEncodedString (path q))).
Proof. intros Hthis Hcount. unfold toString. exec. Qed.

Lemma queryIdentifier_runs h this q :
  queries h !! this = Some q →
  queryIdentifier this h = (h, Ok (identifier_of (queryParams_ q))).
Proof. intros Hthis. unfold identifier_of. exec. Qed.

Lemma isEqual_runs h this other q o :
  queries h !! this = Some q →
  queries h !! other = Some o →
  validateArgCount "Query.isEqual" 1 1 1 = Ok () →
  isEqual this [JQuery other] h =
    (h, Ok (bool_decide (repo q = repo o) && pathEquals (path q) (path o)
            && bool_decide (identifier_of (queryParams_ q) = identifier_of (queryParams_ o)))).
Proof.
  intros Hthis Hother Hcount. unfold isEqual.
  unfold mbind, M_bind, mret, M_ret, lift, this_, instanceof_Query.
  rewrite Hthis. simpl. rewrite Hcount. simpl. rewrite Hother. simpl.
  rewrite Hother.
  by rewrite (queryIdentifier_runs _ _ q), (queryIdentifier_runs _ _ o).
Qed.

(** An injective key that is never the word [default] gives different
    parameter objects different identifiers. *)
Lemma identifier_of_inj p1 p2 :
  Inj (=) (=) ObjectToUniqueKey →
  (∀ obj, ObjectToUniqueKey obj ≠ "default") →
  identifier_of p1 = identifier_of p2 →
  queryParamsGetQueryObject p1 = queryParamsGetQueryObject p2.
Proof.
  intros Hinj Hdefault. unfold identifier_of. simpl.
  repeat case_bool_decide; intros Heq.
  - apply Hinj. congruence.
  - by destruct (Hdefault (queryParamsGetQueryObject p2)).
  - by destruct (Hdefault (queryParamsGetQueryObject p1)).
  - by apply Hinj.
Qed.

(** ** [getCancelAndContextArgs_] and [on] *)

Lemma on_runs h this q args :
  queries h !! this = Some q →
  validateArgCount "Query.on" 2 4 (length args) = Ok () →
  validateEventType "Query.on" 1 (arg 0 args) false = Ok () →
  validateCallback "Query.on" 2 (arg 1 args) false = Ok () →
  on this args h =
    match getCancelAndContextArgs_ "Query.on" (arg 2 args) (arg 3 args) with
    | Ok ret =>
        (mkHeap (queries h)
           (registrations h
            ++ [(repo q, this, registration_of (arg 0 args) (arg 1 args) ret)]),
         Ok (arg 1 args))
    | Throw e => (h, Throw e)
    end.
Proof.
  intros Hthis Hcount Htype Hcallback. unfold on, registration_of.
  unfold mbind, M_bind, mret, M_ret, lift. rewrite Hcount, Htype, Hcallback.
  destruct (getCancelAndContextArgs_ _ _ _) as [ret|e]; [|done].
  unfold onValueEvent, onChildEvent, repoAddEventCallbackForQuery.
  destruct (strict_eq _ _); exec.
Qed.

(** ** The statements about the class *)

(** C1. [isEqual] on two Query instances returns, and it returns true if
    and only if the two have the same repo, paths that [pathEquals] finds
    equal, and the same query identifier, the one [queryIdentifier] computes
    from their QueryParams. In particular two queries of one repo and path
    whose parameters canonicalize to the same parameter object are equal;
    and when the key of a parameter object identifies it and the objects
    of [queryParamsStartAt] and [queryParamsStartAfter] on the same value
    differ, [startAt] and [startAfter] with the same arguments make unequal
    queries. *)
Theorem isEqual_same_repo_path_identifier h l1 l2 q1 q2 :
  queries h !! l1 = Some q1 →
  queries h !! l2 = Some q2 →
  validateArgCount "Query.isEqual" 1 1 1 = Ok () →
  ∃ b, isEqual l1 [JQuery l2] h = (h, Ok b)
    ∧ (b = true ↔
         repo q1 = repo q2
         ∧ pathEquals (path q1) (path q2) = true
         ∧ identifier_of (queryParams_ q1) = identifier_of (queryParams_ q2))
    ∧ (repo q1 = repo q2 →
       pathEquals (path q1) (path q2) = true →
       queryParamsGetQueryObject (queryParams_ q1)
         = queryParamsGetQueryObject (queryParams_ q2) →
       b = true)
    ∧ (Inj (=) (=) ObjectToUniqueKey →
       (∀ obj, ObjectToUniqueKey obj ≠ "default") →
       (∀ p v n, queryParamsGetQueryObject (queryParamsStartAt p v n)
                 ≠ queryParamsGetQueryObject (queryParamsStartAfter p v n)) →
       ∀ this q args h0 h1,
         queries h0 !! this = Some q →
         startAt this args h0 = (h1, Ok l1) →
         startAfter this args h1 = (h, Ok l2) →
         b = false).
Proof.
  intros Hl1 Hl2 Hcount. eexists. split; [by apply isEqual_runs|].
  split; [|split].
  - rewrite !andb_true_iff, !bool_decide_eq_true. naive_solver.
  - intros Hrepo Hpath Hobj. rewrite !andb_true_iff, !bool_decide_eq_true.
    repeat split; [done..|]. unfold identifier_of. by rewrite Hobj.
  - intros Hinj Hdefault Hdiffer this q args h0 h1 Hthis Hat Hafter.
    apply (range_returned StartAt _ _ q) in Hat as (-> & -> & _); [|done..].
    apply (range_returned StartAfter _ _ q) in Hafter as (-> & -> & _);
      [|done|by apply alloc_lookup_old].
    rewrite alloc_lookup_new in Hl2.
    erewrite alloc_lookup_old in Hl1 by apply alloc_lookup_new.
    simplify_eq/=. apply andb_false_iff. right. apply bool_decide_eq_false.
    intros Hid%identifier_of_inj; [|done..]. by eapply Hdiffer.
Qed.

(** C3, amended. On a Query whose [orderByCalled_] is true every call of
    [orderByChild], [orderByKey], [orderByPriority] or [orderByValue]
    throws. On a Query whose [orderByCalled_] is false such a call, given
    valid arguments, returns a new Query that is marked as ordered and has
    the parameters with the new index, provided these parameters pass
    [validateQueryEndpoints_]: the bounds the query has must be valid for
    the index that is selected. *)
Theorem orderBy_only_once t h this q args :
  is_orderBy t = true →
  queries h !! this = Some q →
  (orderByCalled_ q = true → ∃ e, call t this args h = (h, Throw e))
  ∧ (orderByCalled_ q = false →
     orderBy_args_valid t args →
     let p' := queryParamsOrderBy (queryParams_ q) (orderBy_index t args) in
     validateQueryEndpoints_ p' = Ok () →
     ∃ q', call t this args h = (alloc h q', Ok (length (queries h)))
       ∧ orderByCalled_ q' = true ∧ queryParams_ q' = p'
       ∧ database q' = database q ∧ path q' = path q).
Proof.
  intros Ht Hthis. split.
  - by apply orderBy_called_throws.
  - intros Hcalled Hargs p' Hends. eexists. split; [by apply orderBy_returns|done].
Qed.

(** C4, amended. [startAt] and [startAfter] throw on a Query that has a
    start bound, [endAt] and [endBefore] on one that has an end bound. On a
    Query without the respective bound the call returns a new Query with
    the bound set, when its arguments pass the argument checks and the
    parameters it builds pass [validateLimit_] (no start bound, end bound
    and unanchored limit together) and [validateQueryEndpoints_] (the new
    bound and the one already there are valid for the active index). *)
Theorem range_bound_only_once t h this q args :
  is_range t = true →
  queries h !! this = Some q →
  (has_bound t (queryParams_ q) = true → ∃ e, call t this args h = (h, Throw e))
  ∧ (has_bound t (queryParams_ q) = false →
     range_args_valid t q args →
     let p' := range_params t (queryParams_ q) (arg_or_null 0 args) (arg 1 args) in
     validateLimit_ p' = Ok () →
     validateQueryEndpoints_ p' = Ok () →
     ∃ q', call t this args h = (alloc h q', Ok (length (queries h)))
       ∧ queryParams_ q' = p' ∧ orderByCalled_ q' = orderByCalled_ q
       ∧ database q' = database q ∧ path q' = path q).
Proof.
  intros Ht Hthis. split.
  - by apply range_bound_set_throws.
  - intros Hbound Hargs p' Hlimit Hends. eexists.
    split; [by apply range_returns|done].
Qed.

(** C5, at the input where the code leaves it. [limitToFirst(Infinity)]
    and [limitToLast(Infinity)] on a Query without a limit return a new
    Query with the limit [Infinity], which is no positive integer. *)
Theorem limit_accepts_Infinity t h this q :
  is_limit t = true →
  queries h !! this = Some q →
  limit_args_valid t [JNumber PosInfinity] →
  hasLimit (queryParams_ q) = false →
  ¬ positive_integer (JNumber PosInfinity)
  ∧ call t this [JNumber PosInfinity] h =
      (alloc h (rebuilt q (limit_params t (queryParams_ q) PosInfinity) (orderByCalled_ q)),
       Ok (length (queries h))).
Proof.
  intros Ht Hthis Hargs Hlimit. split; [apply Infinity_no_integer|].
  eapply limit_returns; eauto.
Qed.

(** C6. [validateLimit_] throws on every QueryParams that has a start
    bound, an end bound and a limit but no anchored limit, and so does
    every builder call that hands such parameters to it: [startAt],
    [startAfter], [endAt], [endBefore]. On parameters with an anchored
    limit [validateLimit_] returns, whatever bounds they have, and it does
    not stop a range method from returning. *)
Theorem unanchored_limit_between_bounds :
  (∀ p, hasStart p = true → hasEnd p = true → hasLimit p = true →
        hasAnchoredLimit p = false → ∃ e, validateLimit_ p = Throw e)
  ∧ (∀ t h this q args,
       is_range t = true →
       queries h !! this = Some q →
       let p' := range_params t (queryParams_ q) (arg_or_null 0 args) (arg 1 args) in
       hasStart p' = true → hasEnd p' = true → hasLimit p' = true →
       hasAnchoredLimit p' = false →
       ∃ e, call t this args h = (h, Throw e))
  ∧ (∀ p, hasAnchoredLimit p = true → validateLimit_ p = Ok ())
  ∧ (∀ t h this q args,
       is_range t = true →
       queries h !! this = Some q →
       let p' := range_params t (queryParams_ q) (arg_or_null 0 args) (arg 1 args) in
       hasAnchoredLimit p' = true →
       has_bound t (queryParams_ q) = false →
       range_args_valid t q args →
       validateQueryEndpoints_ p' = Ok () →
       call t this args h
         = (alloc h (rebuilt q p' (orderByCalled_ q)), Ok (length (queries h)))).
Proof.
  split; [apply validateLimit_throws|]. split; [|split].
  - intros t h this q args Ht Hthis p' Hs He Hl Ha.
    destruct (validateLimit_throws p' Hs He Hl Ha) as [e Hthrow].
    by eapply range_limit_throws.
  - apply validateLimit_anchored.
  - intros t h this q args Ht Hthis p' Ha Hbound Hargs Hends.
    apply range_returns; [done..|by apply validateLimit_anchored|done].
Qed.

(** C7. [validateQueryEndpoints_] throws on parameters with a bound that
    the active index does not admit: under the key index a bound whose
    value is no string or whose name is not the default one, under the
    priority index a non-null value that is no valid priority, under the
    value index or a child index a non-null value of type object. Every
    range- or order-constructing call validates the parameters it builds
    before it returns: when [validateQueryEndpoints_] throws on them, or
    they have such a bound, the call throws. *)
Theorem endpoints_validated_eagerly :
  (∀ p, bad_start p ∨ bad_end p → ∃ e, validateQueryEndpoints_ p = Throw e)
  ∧ (∀ t h this q args p' e,
       queries h !! this = Some q →
       p' ∈ built_params t q args →
       validateQueryEndpoints_ p' = Throw e →
       ∃ h' e', call t this args h = (h', Throw e'))
  ∧ (∀ t h this q args p',
       queries h !! this = Some q →
       p' ∈ built_params t q args →
       bad_start p' ∨ bad_end p' →
       ∃ h' e', call t this args h = (h', Throw e')).
Proof.
  assert (Heager : ∀ t h this q args p' e,
    queries h !! this = Some q →
    p' ∈ built_params t q args →
    validateQueryEndpoints_ p' = Throw e →
    ∃ h' e', call t this args h = (h', Throw e')).
  { intros t h this q args p' e Hthis Hin Hthrow. unfold built_params in Hin.
    destruct (is_orderBy t) eqn:Ho; [|destruct (is_range t) eqn:Hr].
    - apply list_elem_of_singleton in Hin as ->. exists h.
      by eapply orderBy_endpoints_throw.
    - apply list_elem_of_singleton in Hin as ->. exists h.
      by eapply range_endpoints_throw.
    - destruct t; try done; [|by apply elem_of_nil in Hin..].
      simpl. unfold equalTo. unfold mbind at 1 2 3 4, M_bind, lift, throw, this_.
      rewrite Hthis. simpl.
      repeat (case_match; simpl; eauto).
      unfold mbind, M_bind.
      destruct (startAt this _ h) as [h1 [started|e1]] eqn:Hat; [|by eauto].
      apply (range_returned StartAt _ _ q) in Hat as Hmade; [|done..].
      destruct Hmade as (-> & -> & _ & _ & Hok). simpl in Hok.
      change (arg_or_null 0 [arg 0 args; arg 1 args]) with (arg_or_null 0 args) in *.
      change (arg 1 [arg 0 args; arg 1 args]) with (arg 1 args) in *.
      apply list_elem_of_In in Hin. destruct Hin as [<-|[<-|[]]]; [congruence|].
      destruct (range_endpoints_throw EndAt
                  (alloc h (rebuilt q (queryParamsStartAt (queryParams_ q)
                     (arg_or_null 0 args) (arg 1 args)) (orderByCalled_ q)))
                  (length (queries h)) _ [arg 0 args; arg 1 args] e
                  eq_refl (alloc_lookup_new _ _) Hthrow) as [e' He'].
      eexists _, e'. exact He'. }
  split; [apply validateQueryEndpoints_bad|]. split; [exact Heager|].
  intros t h this q args p' Hthis Hin Hbad.
  destruct (validateQueryEndpoints_bad p' Hbad) as [e He]. by eapply Heager.
Qed.

(** C8, amended. On a Query with no start bound and no end bound,
    [equalTo(v, name)] whose arguments pass its own argument checks (one or
    two arguments, a value that is data and so not [undefined], a name
    that is a key when it is given) is [startAt(v, name)] followed by
    [endAt(v, name)] on what it returned: the same heap, the same outcome,
    and so the same QueryParams in the Query that is returned; with the
    name left out, the two calls receive [undefined] for it. A call that
    one of these checks rejects throws, on every Query. When a start bound
    or an end bound is set, [equalTo] throws. *)
Theorem equalTo_is_startAt_then_endAt h this q :
  queries h !! this = Some q →
  (hasStart (queryParams_ q) = false →
   hasEnd (queryParams_ q) = false →
   (∀ v name,
      validateArgCount "Query.equalTo" 1 2 2 = Ok () →
      validateFirebaseDataArg "Query.equalTo" 1 v (path q) false = Ok () →
      validateKey "Query.equalTo" 2 name true = Ok () →
      equalTo this [v; name] h
        = (started ← startAt this [v; name]; endAt started [v; name]) h)
   ∧ (∀ v,
      validateArgCount "Query.equalTo" 1 2 1 = Ok () →
      validateFirebaseDataArg "Query.equalTo" 1 v (path q) false = Ok () →
      validateKey "Query.equalTo" 2 JUndefined true = Ok () →
      equalTo this [v] h
        = (started ← startAt this [v; JUndefined];
           endAt started [v; JUndefined]) h))
  ∧ (∀ args,
       ¬ (validateArgCount "Query.equalTo" 1 2 (length args) = Ok ()
          ∧ validateFirebaseDataArg "Query.equalTo" 1 (arg 0 args) (path q) false
            = Ok ()
          ∧ validateKey "Query.equalTo" 2 (arg 1 args) true = Ok ()) →
       ∃ e, equalTo this args h = (h, Throw e))
  ∧ (hasStart (queryParams_ q) = true ∨ hasEnd (queryParams_ q) = true →
     ∀ args, ∃ e, equalTo this args h = (h, Throw e)).
Proof.
  intros Hthis. split_and!.
  - intros Hs He. split.
    + intros v name Hcount Hdata Hkey. by apply (equalTo_runs h this q [v; name]).
    + intros v Hcount Hdata Hkey. by apply (equalTo_runs h this q [v]).
  - intros args Hrejected.
    unfold equalTo, mbind, M_bind, this_, lift. rewrite Hthis. simpl.
    destruct (validateArgCount _ _ _ _) as [[]|e1] eqn:Hcount; [|by exists e1].
    destruct (validateFirebaseDataArg _ _ _ _ _) as [[]|e2] eqn:Hdata;
      [|by exists e2].
    destruct (validateKey _ _ _ _) as [[]|e3] eqn:Hkey; [|by exists e3].
    by destruct Hrejected.
  - intros Hbound args. by eapply equalTo_bound_set_throws.
Qed.

(** C9, amended. [toString] returns the URL of the location: the string
    of the repo followed by the URL-encoded path. The QueryParams take no
    part in it: two queries of one repo and path have the same string. *)
Theorem toString_is_location_url h l1 l2 q1 q2 args :
  queries h !! l1 = Some q1 →
  queries h !! l2 = Some q2 →
  validateArgCount "Query.toString" 0 0 (length args) = Ok () →
  toString l1 args h
    = (h, Ok (Repo_toString (repo q1) +:+ pathToUrlEncodedString (path q1)))
  ∧ (repo q1 = repo q2 → path q1 = path q2 →
     toString l2 args h = toString l1 args h).
Proof.
  intros Hl1 Hl2 Hcount. split; [by apply toString_runs|].
  intros Hrepo Hpath.
  rewrite (toString_runs h l1 q1), (toString_runs h l2 q2) by done.
  by rewrite Hrepo, Hpath.
Qed.

(** C10, amended. [getCancelAndContextArgs_] reads its two arguments by
    their truthiness. Both truthy: the first is the cancel callback and the
    second the context, once [validateCallback] and [validateContextObject]
    have accepted them. The first truthy and the second not: an object is
    the context and there is no cancel callback, a function is the cancel
    callback and there is no context, anything else throws. The first not
    truthy: no cancel callback, no context and no error, whatever the
    second is. [on] hands its third and fourth argument to it, and throws
    what it throws before anything is registered. *)
Theorem cancel_and_context_by_truthiness fnName c x :
  (truthy c = true → truthy x = true →
     getCancelAndContextArgs_ fnName c x =
       (validateCallback fnName 3 c true;;
        validateContextObject fnName 4 x true;;
        Ok (mkCancelAndContext c x)))
  ∧ (truthy c = true → truthy x = false → typeof c = "object" →
     getCancelAndContextArgs_ fnName c x = Ok (mkCancelAndContext JNull c))
  ∧ (truthy c = true → truthy x = false → typeof c = "function" →
     getCancelAndContextArgs_ fnName c x = Ok (mkCancelAndContext c JNull))
  ∧ (truthy c = true → truthy x = false →
     typeof c ≠ "object" → typeof c ≠ "function" →
     ∃ e, getCancelAndContextArgs_ fnName c x = Throw e)
  ∧ (truthy c = false →
     getCancelAndContextArgs_ fnName c x = Ok (mkCancelAndContext JNull JNull))
  ∧ (∀ h this q args,
       queries h !! this = Some q →
       validateArgCount "Query.on" 2 4 (length args) = Ok () →
       validateEventType "Query.on" 1 (arg 0 args) false = Ok () →
       validateCallback "Query.on" 2 (arg 1 args) false = Ok () →
       on this args h =
         match getCancelAndContextArgs_ "Query.on" (arg 2 args) (arg 3 args) with
         | Ok ret =>
             (mkHeap (queries h)
                (registrations h
                 ++ [(repo q, this, registration_of (arg 0 args) (arg 1 args) ret)]),
              Ok (arg 1 args))
         | Throw e => (h, Throw e)
         end).
Proof.
  split_and!; [..|apply on_runs]; unfold getCancelAndContextArgs_.
  - by intros -> ->.
  - intros Hc -> Hty. rewrite Hc. simpl. rewrite bool_decide_eq_true_2 by done.
    by destruct c.
  - intros -> -> Hty. simpl. rewrite bool_decide_eq_false_2 by (by rewrite Hty).
    simpl. by rewrite bool_decide_eq_true_2.
  - intros -> -> Hobj Hfun. simpl. rewrite !bool_decide_eq_false_2 by done.
    simpl. eauto.
  - by intros ->.
Qed.


(** ** Further properties of the class *)

(** X1. [validateQueryEndpoints_] returns on exactly the parameters whose
    bounds the active index admits: under the key index a bound has the
    default name and a string as value; under the priority index its value
    is [null], [undefined] or a valid priority; under the value index or a
    child index its value is no object other than [null], whatever its
    name. *)
Theorem validateQueryEndpoints_accepts p :
  validateQueryEndpoints_ p = Ok () ↔ ¬ bad_start p ∧ ¬ bad_end p.
Proof.
  split.
  - intros Hok. split; intros Hbad.
    + destruct (validateQueryEndpoints_bad p (or_introl Hbad)). congruence.
    + destruct (validateQueryEndpoints_bad p (or_intror Hbad)). congruence.
  - intros [Hs He]. by apply validateQueryEndpoints_good.
Qed.

(** What a builder other than [equalTo] that returned has made: one new
    instance, at the location of the receiver. *)
Lemma direct_returned t h this q args h' l' :
  t ≠ EqualTo →
  queries h !! this = Some q →
  call t this args h = (h', Ok l') →
  ∃ p', h' = alloc h (rebuilt q p' (is_orderBy t || orderByCalled_ q))
        ∧ l' = length (queries h).
Proof.
  intros Ht Hthis Hcall.
  destruct t; try done; simpl in *;
    unfold orderByChild, orderByKey, orderByPriority, orderByValue,
      startAt, startAfter, endAt, endBefore, limitToFirst, limitToLast in Hcall;
    exec; by eexists.
Qed.

Lemma equalTo_returned_steps h this q args h' l' :
  queries h !! this = Some q →
  equalTo this args h = (h', Ok l') →
  hasStart (queryParams_ q) = false ∧ hasEnd (queryParams_ q) = false
  ∧ ∃ h1 l1, startAt this [arg 0 args; arg 1 args] h = (h1, Ok l1)
             ∧ endAt l1 [arg 0 args; arg 1 args] h1 = (h', Ok l').
Proof.
  intros Hthis. unfold equalTo.
  unfold mbind at 1 2 3 4, M_bind, lift, throw, this_. rewrite Hthis. simpl.
  repeat (case_match; simpl; try done).
  unfold mbind, M_bind.
  destruct (startAt this _ h) as [h1 [l1|e1]] eqn:Hat; [|done].
  intros Hend. eauto 10.
Qed.

Lemma call_returned t h this q args h' l' :
  queries h !! this = Some q →
  call t this args h = (h', Ok l') →
  ∃ q', queries h' !! l' = Some q'
    ∧ database q' = database q ∧ path q' = path q
    ∧ repo q' = repo_ (database q)
    ∧ orderByCalled_ q' = is_orderBy t || orderByCalled_ q.
Proof.
  intros Hthis Hcall.
  assert (t = EqualTo ∨ t ≠ EqualTo) as [->|Ht] by (destruct t; auto).
  - apply (equalTo_returned_steps _ _ q) in Hcall as (_ & _ & h1 & l1 & Hat & Hend);
      [|done].
    apply (direct_returned StartAt _ _ q) in Hat as (p1 & -> & ->); [|done..].
    eapply (direct_returned EndAt) in Hend as (p2 & -> & ->);
      [|done|apply alloc_lookup_new].
    eexists. split; [apply alloc_lookup_new|done].
  - apply (direct_returned _ _ _ q) in Hcall as (p' & -> & ->); [|done..].
    eexists. split; [apply alloc_lookup_new|done].
Qed.

(** X2. Every transformation that returns returns a Query at the location of
    its receiver: the same database, the repo of that database and the
    same path; it is marked as ordered when the receiver was or the method
    is an [orderBy*]. *)
Theorem transformation_same_location t h this q args h' l' :
  queries h !! this = Some q →
  call t this args h = (h', Ok l') →
  ∃ q', queries h' !! l' = Some q'
    ∧ database q' = database q ∧ path q' = path q
    ∧ repo q' = repo_ (database q)
    ∧ orderByCalled_ q' = is_orderBy t || orderByCalled_ q.
Proof. apply call_returned. Qed.

(** *** Necessary and sufficient conditions *)

(** X3. An [orderBy*] call returns exactly when no [orderBy*] was called
    before, its arguments are valid and the re-indexed parameters pass
    [validateQueryEndpoints_]. *)
Theorem orderBy_returns_iff t h this q args :
  is_orderBy t = true →
  queries h !! this = Some q →
  (∃ h' l', call t this args h = (h', Ok l'))
  ↔ orderByCalled_ q = false
    ∧ orderBy_args_valid t args
    ∧ validateQueryEndpoints_
        (queryParamsOrderBy (queryParams_ q) (orderBy_index t args)) = Ok ().
Proof.
  intros Ht Hthis. split.
  - intros (h' & l' & Hcall).
    destruct t; try done; simpl in *;
      unfold orderByChild, orderByKey, orderByPriority, orderByValue in Hcall;
      exec; by destruct (orderByCalled_ q).
  - intros (Hcalled & Hargs & Hends). eexists _, _. by apply orderBy_returns.
Qed.

(** X4. A range method returns exactly when the bound it sets is not there
    yet, its arguments pass the argument checks and the parameters it
    builds pass [validateLimit_] and [validateQueryEndpoints_]. *)
Theorem range_returns_iff t h this q args :
  is_range t = true →
  queries h !! this = Some q →
  let p' := range_params t (queryParams_ q) (arg_or_null 0 args) (arg 1 args) in
  (∃ h' l', call t this args h = (h', Ok l'))
  ↔ has_bound t (queryParams_ q) = false
    ∧ range_args_valid t q args
    ∧ validateLimit_ p' = Ok ()
    ∧ validateQueryEndpoints_ p' = Ok ().
Proof.
  intros Ht Hthis p'. split.
  - intros (h' & l' & Hcall).
    destruct t; try done; simpl in *;
      unfold startAt, startAfter, endAt, endBefore in Hcall; exec.
  - intros (Hbound & Hargs & Hlimit & Hends). eexists _, _. by apply range_returns.
Qed.

(** X5. A limit method whose argument count is valid returns exactly when its
    argument is a positive integer or [Infinity] and no limit is set. *)
Theorem limit_returns_iff t h this q args :
  is_limit t = true →
  queries h !! this = Some q →
  limit_args_valid t args →
  (∃ h' l', call t this args h = (h', Ok l'))
  ↔ (positive_integer (arg 0 args) ∨ arg 0 args = JNumber PosInfinity)
    ∧ hasLimit (queryParams_ q) = false.
Proof.
  intros Ht Hthis Hargs. split.
  - intros (h' & l' & Hcall).
    destruct t; try done; simpl in *; unfold limitToFirst, limitToLast in Hcall;
      exec;
      match goal with
      | H : _ || _ = false |- _ => apply limit_check_passes in H as [?| ->]
      end; auto.
  - intros [Hn Hlimit].
    assert (∃ n, arg 0 args = JNumber n ∧ (positive_integer (JNumber n) ∨ n = PosInfinity))
      as (n & Harg & Hok).
    { destruct Hn as [(k & Hk & Hn)|Hn]; rewrite Hn; eexists; split; try done.
      - left. by exists k.
      - by right. }
    eexists _, _. by eapply limit_returns.
Qed.

(** X6. When [equalTo] returns, its receiver had no bound and the Query it
    returns has the parameters of [queryParamsEndAt] on those of
    [queryParamsStartAt], both on the value ([null] for [undefined]) and
    the name it was given. *)
Theorem equalTo_returned h this q args h' l' :
  queries h !! this = Some q →
  equalTo this args h = (h', Ok l') →
  hasStart (queryParams_ q) = false ∧ hasEnd (queryParams_ q) = false
  ∧ ∃ q', queries h' !! l' = Some q'
      ∧ queryParams_ q' =
          queryParamsEndAt
            (queryParamsStartAt (queryParams_ q) (arg_or_null 0 args) (arg 1 args))
            (arg_or_null 0 args) (arg 1 args)
      ∧ orderByCalled_ q' = orderByCalled_ q.
Proof.
  intros Hthis Hcall.
  apply (equalTo_returned_steps _ _ q) in Hcall as (Hs & He & h1 & l1 & Hat & Hend);
    [|done].
  split; [done|]. split; [done|].
  apply (range_returned StartAt _ _ q) in Hat as (-> & -> & _); [|done..].
  eapply (range_returned EndAt) in Hend as (-> & -> & _);
    [|done|apply alloc_lookup_new].
  eexists. split; [apply alloc_lookup_new|done].
Qed.

(** *** Chains *)

Lemma chain_app calls1 calls2 this h :
  chain (calls1 ++ calls2) this h =
    match chain calls1 this h with
    | (h1, Ok l) => chain calls2 l h1
    | (h1, Throw e) => (h1, Throw e)
    end.
Proof.
  revert this h. induction calls1 as [|[t args] calls1 IH]; intros this h; [done|].
  simpl. unfold mbind, M_bind. destruct (call t this args h) as [h1 [l|e]]; [|done].
  apply IH.
Qed.

Lemma chain_returned calls h this q h' l' :
  queries h !! this = Some q →
  chain calls this h = (h', Ok l') →
  ∃ q', queries h' !! l' = Some q'
    ∧ database q' = database q ∧ path q' = path q
    ∧ (orderByCalled_ q = true → orderByCalled_ q' = true).
Proof.
  revert this h q. induction calls as [|[t args] calls IH]; intros this h q Hthis.
  - intros [= <- <-]. eauto.
  - simpl. unfold mbind, M_bind.
    destruct (call t this args h) as [h1 [l|e]] eqn:Hcall; [|done].
    intros Hrest.
    apply (call_returned _ _ _ q) in Hcall as (q1 & Hq1 & Hdb & Hpath & _ & Hcalled);
      [|done].
    apply (IH _ _ q1) in Hrest as (q' & Hq' & Hdb' & Hpath' & Hcalled'); [|done].
    exists q'. split; [done|]. split; [congruence|]. split; [congruence|].
    intros Hq. apply Hcalled'. rewrite Hcalled, Hq. apply orb_true_r.
Qed.

(** X7. A chain of transformations that returns returns a Query at the
    location of the Query it started from, and a chain from an ordered
    Query returns an ordered one. *)
Theorem chain_same_location calls h this q h' l' :
  queries h !! this = Some q →
  chain calls this h = (h', Ok l') →
  ∃ q', queries h' !! l' = Some q'
    ∧ database q' = database q ∧ path q' = path q
    ∧ (orderByCalled_ q = true → orderByCalled_ q' = true).
Proof. apply chain_returned. Qed.

(** X8. A chain with two [orderBy*] calls throws, wherever the two stand in
    it and whatever is called before, between and after them. *)
Theorem second_orderBy_in_chain_throws before t1 args1 between t2 args2 after h this q :
  is_orderBy t1 = true →
  is_orderBy t2 = true →
  queries h !! this = Some q →
  ∃ h' e,
    chain (before ++ (t1, args1) :: between ++ (t2, args2) :: after) this h
      = (h', Throw e).
Proof.
  intros Ht1 Ht2 Hthis. rewrite chain_app.
  destruct (chain before this h) as [h0 [l0|e]] eqn:Hbefore; [|by eauto].
  apply (chain_returned _ _ _ q) in Hbefore as (q0 & Hq0 & _); [|done].
  change ((t1, args1) :: between ++ (t2, args2) :: after)
    with ([(t1, args1)] ++ between ++ (t2, args2) :: after).
  rewrite chain_app. simpl. unfold mbind, M_bind, mret, M_ret.
  destruct (call t1 l0 args1 h0) as [h1 [l1|e]] eqn:Hcall1; [|by eauto].
  apply (call_returned _ _ _ q0) in Hcall1 as (q1 & Hq1 & _ & _ & _ & Hcalled1);
    [|done].
  rewrite Ht1 in Hcalled1. simpl in Hcalled1.
  rewrite chain_app.
  destruct (chain between l1 h1) as [h2 [l2|e]] eqn:Hbetween; [|by eauto].
  apply (chain_returned _ _ _ q1) in Hbetween as (q2 & Hq2 & _ & _ & Hcalled2);
    [|done].
  simpl. unfold mbind, M_bind.
  destruct (orderBy_called_throws t2 h2 l2 q2 args2 Ht2 Hq2 (Hcalled2 Hcalled1))
    as [e ->].
  eauto.
Qed.

(** X9. Two range methods for the same bound, one right after the other,
    throw, when the parameters the first one builds report the bound. *)
Theorem second_bound_throws t1 args1 t2 args2 h this q :
  is_range t1 = true →
  is_range t2 = true →
  sets_start t1 = sets_start t2 →
  (∀ p v n, has_bound t1 (range_params t1 p v n) = true) →
  queries h !! this = Some q →
  ∃ h' e, chain [(t1, args1); (t2, args2)] this h = (h', Throw e).
Proof.
  intros Ht1 Ht2 Hside Hreports Hthis. simpl. unfold mbind, M_bind.
  destruct (call t1 this args1 h) as [h1 [l1|e]] eqn:Hcall1; [|by eauto].
  apply (range_returned _ _ _ q) in Hcall1 as (-> & -> & _); [|done..].
  destruct (range_bound_set_throws t2
              (alloc h (rebuilt q (range_params t1 (queryParams_ q)
                 (arg_or_null 0 args1) (arg 1 args1)) (orderByCalled_ q)))
              (length (queries h)) _ args2 Ht2 (alloc_lookup_new _ _)) as [e ->].
  - simpl. specialize (Hreports (queryParams_ q) (arg_or_null 0 args1) (arg 1 args1)).
    by destruct t1, t2.
  - eauto.
Qed.

(** X10. Two limit methods, one right after the other, throw, when the
    parameters the first one builds report the limit. *)
Theorem second_limit_throws t1 args1 t2 args2 h this q :
  is_limit t1 = true →
  is_limit t2 = true →
  (∀ p n, hasLimit (limit_params t1 p n) = true) →
  queries h !! this = Some q →
  ∃ h' e, chain [(t1, args1); (t2, args2)] this h = (h', Throw e).
Proof.
  intros Ht1 Ht2 Hreports Hthis. simpl. unfold mbind, M_bind.
  destruct (call t1 this args1 h) as [h1 [l1|e]] eqn:Hcall1; [|by eauto].
  assert (∃ n, h1 = alloc h (rebuilt q (limit_params t1 (queryParams_ q) n)
                               (orderByCalled_ q))
               ∧ l1 = length (queries h)) as (n & -> & ->).
  { destruct t1; try done; simpl in *; unfold limitToFirst, limitToLast in Hcall1;
      exec; by eexists. }
  destruct (limit_set_throws t2
              (alloc h (rebuilt q (limit_params t1 (queryParams_ q) n) (orderByCalled_ q)))
              (length (queries h)) _ args2 Ht2 (alloc_lookup_new _ _)) as [e ->].
  - simpl. apply Hreports.
  - eauto.
Qed.

(** *** [isEqual] and [on] *)

(** X11. [isEqual] throws when its argument is no instance of Query. *)
Theorem isEqual_rejects_non_query h this q other :
  queries h !! this = Some q →
  validateArgCount "Query.isEqual" 1 1 1 = Ok () →
  (∀ l, other = JQuery l → queries h !! l = None) →
  isEqual this [other] h =
    (h, Throw (Error
      "Query.isEqual failed: First argument must be an instance of firebase.database.Query.")).
Proof.
  intros Hthis Hcount Hother. unfold isEqual.
  unfold mbind, M_bind, mret, M_ret, lift, throw, this_, instanceof_Query.
  rewrite Hthis. simpl. rewrite Hcount. simpl.
  destruct other as [| | | | | | |l]; try done. simpl.
  by rewrite (Hother l eq_refl).
Qed.

(** X12. When [pathEquals] is an equivalence on paths, [isEqual] is one on the
    Query instances: reflexive, symmetric and transitive. *)
Theorem isEqual_equivalence h :
  (∀ p : Path, pathEquals p p = true) →
  (∀ p1 p2 : Path, pathEquals p1 p2 = pathEquals p2 p1) →
  (∀ p1 p2 p3 : Path,
     pathEquals p1 p2 = true → pathEquals p2 p3 = true → pathEquals p1 p3 = true) →
  validateArgCount "Query.isEqual" 1 1 1 = Ok () →
  (∀ l q, queries h !! l = Some q → isEqual l [JQuery l] h = (h, Ok true))
  ∧ (∀ l1 l2 q1 q2,
       queries h !! l1 = Some q1 → queries h !! l2 = Some q2 →
       isEqual l1 [JQuery l2] h = isEqual l2 [JQuery l1] h)
  ∧ (∀ l1 l2 l3 q1 q2 q3,
       queries h !! l1 = Some q1 → queries h !! l2 = Some q2 →
       queries h !! l3 = Some q3 →
       isEqual l1 [JQuery l2] h = (h, Ok true) →
       isEqual l2 [JQuery l3] h = (h, Ok true) →
       isEqual l1 [JQuery l3] h = (h, Ok true)).
Proof.
  intros Hrefl Hsym Htrans Hcount. split_and!.
  - intros l q Hl. rewrite (isEqual_runs h l l q q) by done.
    by rewrite Hrefl, !bool_decide_eq_true_2.
  - intros l1 l2 q1 q2 Hl1 Hl2.
    rewrite (isEqual_runs h l1 l2 q1 q2), (isEqual_runs h l2 l1 q2 q1) by done.
    rewrite (Hsym (path q1) (path q2)). do 3 f_equal.
    + f_equal; apply bool_decide_ext; naive_solver.
    + apply bool_decide_ext; naive_solver.
  - intros l1 l2 l3 q1 q2 q3 Hl1 Hl2 Hl3.
    rewrite (isEqual_runs h l1 l2 q1 q2), (isEqual_runs h l2 l3 q2 q3),
      (isEqual_runs h l1 l3 q1 q3) by done.
    intros [= H12] [= H23]. do 2 f_equal.
    apply andb_true_iff in H12 as [[R12 P12]%andb_true_iff I12].
    apply andb_true_iff in H23 as [[R23 P23]%andb_true_iff I23].
    apply bool_decide_eq_true in R12, R23, I12, I23.
    rewrite (Htrans _ _ _ P12 P23).
    rewrite !bool_decide_eq_true_2 by congruence. done.
Qed.

(** X13. [on] throws and leaves the heap as it was, or returns the callback it
    was given and has handed one registration for its receiver to the
    repo; it never changes a Query instance. *)
Theorem on_registers_or_throws h this q args h' r :
  queries h !! this = Some q →
  on this args h = (h', r) →
  queries h' = queries h
  ∧ match r with
    | Ok callback =>
        callback = arg 1 args
        ∧ ∃ registration,
            registrations h' = registrations h ++ [(repo q, this, registration)]
    | Throw _ => h' = h
    end.
Proof.
  intros Hthis. unfold on, onValueEvent, onChildEvent, repoAddEventCallbackForQuery.
  intros Hcall. exec; eauto.
Qed.

Lemma getCancelAndContextArgs_context fnName c x ret :
  getCancelAndContextArgs_ fnName c x = Ok ret →
  js_or (context ret) JNull = context ret.
Proof.
  unfold getCancelAndContextArgs_.
  destruct (truthy c) eqn:Hc, (truthy x) eqn:Hx; simpl.
  - destruct (validateCallback _ _ _ _); [|done]. simpl.
    destruct (validateContextObject _ _ _ _); [|done]. simpl.
    intros [= <-]. simpl. unfold js_or. by rewrite Hx.
  - repeat case_match; intros [= <-]; simpl; try done.
    unfold js_or. by rewrite Hc.
  - by intros [= <-].
  - by intros [= <-].
Qed.

(** X14. [off] with an event type, a callback and the context that [on] took
    from its arguments hands the repo the registration that [on] handed
    to it, with the cancel callback set to [null]. *)
Theorem off_names_what_on_registered remove h this q eventType callback third fourth ret :
  queries h !! this = Some q →
  truthy eventType = true →
  truthy callback = true →
  getCancelAndContextArgs_ "Query.on" third fourth = Ok ret →
  validateArgCount "Query.off" 0 3 3 = Ok () →
  validateEventType "Query.off" 1 eventType true = Ok () →
  validateCallback "Query.off" 2 callback true = Ok () →
  validateContextObject "Query.off" 3 (context ret) true = Ok () →
  off remove this [eventType; callback; context ret] h
    = remove (repo q) this
        (Some (without_cancel (registration_of eventType callback ret))) h.
Proof.
  intros Hthis Htype Hcallback Hret Hcount Hevent Hcb Hctx.
  unfold off, registration_of.
  change (arg 0 [eventType; callback; context ret]) with eventType.
  change (arg 1 [eventType; callback; context ret]) with callback.
  change (arg 2 [eventType; callback; context ret]) with (context ret).
  unfold mbind, M_bind, lift, this_. simpl.
  rewrite Hcount, Hevent, Hcb, Hctx, Hthis. simpl.
  rewrite (getCancelAndContextArgs_context _ _ _ _ Hret), Htype, Hcallback.
  unfold js_or at 1. rewrite Hcallback.
  by destruct (strict_eq eventType (JString "value")).
Qed.
End Properties.

(** * The statements on the model *)

Import Model.

(** ** The parameter objects of the model and their keys *)

Lemma model_key_inj : Inj (=) (=) ObjectToUniqueKey.
Proof.
  intros o1 o2 Heq. unfold ObjectToUniqueKey in Heq.
  repeat case_decide; by simplify_eq/=.
Qed.

Lemma model_key_not_default obj : ObjectToUniqueKey obj ≠ "default".
Proof. done. Qed.

Lemma object_startAt_inclusive (p : QueryParams) v n :
  queryParamsGetQueryObject (queryParamsStartAt p v n) !! "startExclusive" = None.
Proof.
  unfold queryParamsGetQueryObject, queryParamsStartAt. cbn [start_ end_ limit_ index_].
  rewrite !lookup_union.
  assert (bound_entries "start" (Some (mkBound v (tie_break n) true)) !! "startExclusive" = None) as ->.
  { destruct (tie_break n); vm_compute; reflexivity. }
  assert (bound_entries "end" (end_ p) !! "startExclusive" = None) as ->.
  { destruct (end_ p) as [[ev [en|] [|]]|]; vm_compute; reflexivity. }
  assert (limit_entries (limit_ p) !! "startExclusive" = None) as ->.
  { destruct (limit_ p) as [[l [[|]|]]|]; vm_compute; reflexivity. }
  assert (index_entry (index_ p) !! "startExclusive" = None) as ->.
  { destruct (index_ p); vm_compute; reflexivity. }
  reflexivity.
Qed.

Lemma object_startAfter_exclusive (p : QueryParams) v n :
  queryParamsGetQueryObject (queryParamsStartAfter p v n) !! "startExclusive"
  = Some (JBoolean true).
Proof.
  unfold queryParamsGetQueryObject, queryParamsStartAfter. cbn [start_ end_ limit_ index_].
  rewrite !lookup_union.
  assert (bound_entries "start" (Some (mkBound v (tie_break n) false)) !! "startExclusive"
          = Some (JBoolean true)) as ->.
  { destruct (tie_break n); vm_compute; reflexivity. }
  by destruct (bound_entries "end" _ !! _), (limit_entries _ !! _),
    (index_entry _ !! _).
Qed.

Lemma model_object_exclusive (p : QueryParams) v n :
  queryParamsGetQueryObject (queryParamsStartAt p v n)
  ≠ queryParamsGetQueryObject (queryParamsStartAfter p v n).
Proof.
  intros Heq.
  pose proof (object_startAt_inclusive p v n) as Hat.
  rewrite Heq, object_startAfter_exclusive in Hat. discriminate.
Qed.

(** ** The statements at sample queries *)

Lemma isEqual_same_repo_path_identifier_witness :
  let h0 := heap_of [byPriority] in
  let h1 := (startAt 0 [num 5] h0).1 in
  let h2 := (startAfter 0 [num 5] h1).1 in
  isEqual 1 [JQuery 2] h2 = (h2, Ok false).
Proof.
  intros h0 h1 h2.
  edestruct (isEqual_same_repo_path_identifier h2 1 2) as (b & Hrun & _ & _ & Hne);
    [reflexivity..|].
  rewrite Hrun. do 2 f_equal.
  apply (Hne model_key_inj model_key_not_default model_object_exclusive
           0 byPriority [num 5] h0 h1); reflexivity.
Defined.

Lemma transformation_keeps_receiver_witness :
  let h := heap_of [plainQuery] in
  queries (call StartAt 0 [JString "a"] h).1 !! 0 = Some plainQuery
  ∧ queries (call EqualTo 0 [num 5] h).1 !! 0 = Some plainQuery.
Proof.
  intros h. split.
  - destruct (call StartAt 0 [JString "a"] h) as [h' r] eqn:Hcall.
    exact (proj1 (transformation_keeps_receiver StartAt h 0 plainQuery
                    [JString "a"] h' r eq_refl Hcall)).
  - destruct (call EqualTo 0 [num 5] h) as [h' r] eqn:Hcall.
    exact (proj1 (transformation_keeps_receiver EqualTo h 0 plainQuery
                    [num 5] h' r eq_refl Hcall)).
Defined.

Lemma orderBy_only_once_witness :
  let h := heap_of [plainQuery; byPriority] in
  (∃ q', call OrderByKey 0 [] h = (alloc h q', Ok 2) ∧ orderByCalled_ q' = true)
  ∧ (∃ e, call OrderByKey 1 [] h = (h, Throw e)).
Proof.
  intros h. split.
  - destruct (proj2 (orderBy_only_once OrderByKey h 0 plainQuery [] eq_refl eq_refl)
                eq_refl eq_refl eq_refl) as (q' & Hcall & Hcalled & _).
    by exists q'.
  - exact (proj1 (orderBy_only_once OrderByKey h 1 byPriority [] eq_refl eq_refl)
             eq_refl).
Defined.

Lemma range_bound_only_once_witness :
  let h := heap_of [plainQuery; fromFive] in
  (∃ q', call StartAt 0 [JString "a"] h = (alloc h q', Ok 2)
         ∧ queryParams_ q' = queryParamsStartAt defaultQueryParams (JString "a") JUndefined)
  ∧ (∃ e, call StartAfter 1 [num 7] h = (h, Throw e)).
Proof.
  intros h. split.
  - destruct (proj2 (range_bound_only_once StartAt h 0 plainQuery [JString "a"]
                       eq_refl eq_refl)
                eq_refl (conj eq_refl (conj eq_refl eq_refl)) eq_refl eq_refl)
      as (q' & Hcall & Hparams & _).
    by exists q'.
  - exact (proj1 (range_bound_only_once StartAfter h 1 fromFive [num 7]
                    eq_refl eq_refl) eq_refl).
Defined.

Lemma limit_accepts_Infinity_witness :
  let h := heap_of [plainQuery] in
  call LimitToFirst 0 [JNumber PosInfinity] h =
    (alloc h (query_with (queryParamsLimitToFirst defaultQueryParams PosInfinity) false),
     Ok 1).
Proof.
  intros h.
  exact (proj2 (limit_accepts_Infinity LimitToFirst h 0 plainQuery
                  eq_refl eq_refl eq_refl eq_refl)).
Defined.

Lemma unanchored_limit_between_bounds_witness :
  (∃ e, call StartAt 0 [num 3] (heap_of [rawLimitToFive])
        = (heap_of [rawLimitToFive], Throw e))
  ∧ (∃ l, (call StartAt 0 [num 3] (heap_of [firstToFive])).2 = Ok l).
Proof.
  destruct unanchored_limit_between_bounds as (_ & Hthrow & _ & Hreturn). split.
  - exact (Hthrow StartAt (heap_of [rawLimitToFive]) 0 rawLimitToFive [num 3]
             eq_refl eq_refl eq_refl eq_refl eq_refl eq_refl).
  - rewrite (Hreturn StartAt (heap_of [firstToFive]) 0 firstToFive [num 3]
               eq_refl eq_refl eq_refl eq_refl
               (conj eq_refl (conj eq_refl eq_refl)) eq_refl).
    by eexists.
Defined.

Lemma endpoints_validated_eagerly_witness :
  ∃ h' e, call OrderByKey 0 [] (heap_of [fromFive]) = (h', Throw e).
Proof.
  destruct endpoints_validated_eagerly as (_ & _ & Heager).
  apply (Heager OrderByKey (heap_of [fromFive]) 0 fromFive []
           (queryParamsOrderBy (queryParams_ fromFive) KEY_INDEX) eq_refl).
  - apply list_elem_of_here.
  - left. split; [reflexivity|]. right. discriminate.
Defined.

Lemma equalTo_is_startAt_then_endAt_witness :
  let h := heap_of [plainQuery; fromFive] in
  equalTo 0 [JString "a"; JUndefined] h
    = (started ← startAt 0 [JString "a"; JUndefined];
       endAt started [JString "a"; JUndefined]) h
  ∧ (∃ e, equalTo 0 [JUndefined] h = (h, Throw e))
  ∧ (∃ e, equalTo 1 [num 5] h = (h, Throw e)).
Proof.
  intros h. split_and!.
  - exact (proj1 (proj1 (equalTo_is_startAt_then_endAt h 0 plainQuery eq_refl)
                    eq_refl eq_refl)
             (JString "a") JUndefined eq_refl eq_refl eq_refl).
  - apply (proj1 (proj2 (equalTo_is_startAt_then_endAt h 0 plainQuery eq_refl))
             [JUndefined]).
    intros (_ & Hdata & _). discriminate Hdata.
  - exact (proj2 (proj2 (equalTo_is_startAt_then_endAt h 1 fromFive eq_refl))
             (or_introl eq_refl) [num 5]).
Defined.

Lemma toString_is_location_url_witness :
  let h := heap_of [plainQuery; firstOnly] in
  toString 1 [] h = toString 0 [] h.
Proof.
  intros h.
  exact (proj2 (toString_is_location_url h 0 1 plainQuery firstOnly []
                  eq_refl eq_refl eq_refl) eq_refl eq_refl).
Defined.

Lemma cancel_and_context_by_truthiness_witness :
  getCancelAndContextArgs_ "Query.on" (JFunction 1) (JObject 2)
    = Ok (mkCancelAndContext (JFunction 1) (JObject 2))
  ∧ getCancelAndContextArgs_ "Query.on" (JObject 2) JUndefined
    = Ok (mkCancelAndContext JNull (JObject 2))
  ∧ getCancelAndContextArgs_ "Query.on" (JFunction 1) JUndefined
    = Ok (mkCancelAndContext (JFunction 1) JNull)
  ∧ (∃ e, getCancelAndContextArgs_ "Query.on" (JString "context") JUndefined
          = Throw e).
Proof.
  split_and!.
  - exact (proj1 (cancel_and_context_by_truthiness "Query.on" (JFunction 1) (JObject 2))
             eq_refl eq_refl).
  - destruct (cancel_and_context_by_truthiness "Query.on" (JObject 2) JUndefined)
      as (_ & Hobject & _).
    exact (Hobject eq_refl eq_refl eq_refl).
  - destruct (cancel_and_context_by_truthiness "Query.on" (JFunction 1) JUndefined)
      as (_ & _ & Hfunction & _).
    exact (Hfunction eq_refl eq_refl eq_refl).
  - destruct (cancel_and_context_by_truthiness "Query.on" (JString "context") JUndefined)
      as (_ & _ & _ & Hother & _).
    apply (Hother eq_refl eq_refl); discriminate.
Defined.

(** ** Where the amended statements differ from the stated ones *)

(** C3, as stated, fails: no [orderBy*] call was made on this query, the
    call has valid arguments, and [orderByKey] throws, for the range of
    the query starts at a number. *)
Lemma orderByKey_after_numeric_start :
  let h := heap_of [fromFive] in
  orderByCalled_ fromFive = false
  ∧ orderBy_args_valid OrderByKey []
  ∧ orderByKey 0 [] h =
      (h, Throw (Error
        ("Query: When ordering by key, the argument passed to startAt(), startAfter(), "
         +:+ "endAt(), endBefore(), or equalTo() must be a string."))).
Proof. by split_and!. Qed.

(** C4, as stated, fails: this query has no start bound and the number 3
    is a valid start value under its index, the priority index, and
    [startAt] throws, for the query has an end bound and an unanchored
    limit. *)
Lemma startAt_before_raw_limit :
  let h := heap_of [rawLimitToFive] in
  hasStart (queryParams_ rawLimitToFive) = false
  ∧ range_args_valid StartAt rawLimitToFive [num 3]
  ∧ validateQueryEndpoints_ (queryParamsStartAt (queryParams_ rawLimitToFive) (num 3) JUndefined)
    = Ok ()
  ∧ startAt 0 [num 3] h =
      (h, Throw (Error
        ("Query: Can't combine startAt(), startAfter(), endAt(), endBefore(), and limit(). Use "
         +:+ "limitToFirst() or limitToLast() instead."))).
Proof. by split_and!. Qed.

(** C8, as stated, fails: this query has no bound; [equalTo] with
    [undefined] as value, or with no argument, throws at its own argument
    checks, and [startAt] followed by [endAt] with the same arguments
    returns a Query: the two read a value that is left out as [null],
    which the priority index admits. *)
Lemma equalTo_without_value :
  let h := heap_of [byPriority] in
  hasStart (queryParams_ byPriority) = false
  ∧ hasEnd (queryParams_ byPriority) = false
  ∧ equalTo 0 [JUndefined] h =
      (h, Throw (Error
        "Query.equalTo failed: the first argument contains an invalid value."))
  ∧ ((started ← startAt 0 [JUndefined; JUndefined];
      endAt started [JUndefined; JUndefined]) h).2 = Ok 2
  ∧ equalTo 0 [] h =
      (h, Throw (Error
        "Query.equalTo failed: Was called with the wrong number of arguments."))
  ∧ ((started ← startAt 0 []; endAt started []) h).2 = Ok 2.
Proof. by split_and!. Qed.

(** C9, as stated, fails: the query of the first child only and the plain
    query of the same location are not equal and have different
    identifiers, and [toString] returns the same string for both, the URL
    of the location. *)
Lemma toString_without_parameters :
  let h := heap_of [plainQuery; firstOnly] in
  toString 0 [] h = (h, Ok "https://repo-7.example.com/rooms")
  ∧ toString 1 [] h = (h, Ok "https://repo-7.example.com/rooms")
  ∧ isEqual 0 [JQuery 1] h = (h, Ok false)
  ∧ (queryIdentifier 0 h).2 ≠ (queryIdentifier 1 h).2.
Proof. split_and!; [reflexivity..|by vm_compute]. Qed.

(** C10, as stated, fails: the number 0 as third argument is not null and
    is neither an object nor a function, and there is no error: [on]
    registers the listener without cancel callback and context. A context
    that follows a [null] third argument is not taken. *)
Lemma falsy_third_argument_no_error :
  let h := heap_of [plainQuery] in
  num 0 ≠ JNull ∧ typeof (num 0) ≠ "object" ∧ typeof (num 0) ≠ "function"
  ∧ getCancelAndContextArgs_ "Query.on" (num 0) JUndefined
    = Ok (mkCancelAndContext JNull JNull)
  ∧ on 0 [JString "value"; JFunction 1; num 0] h
    = (mkHeap [plainQuery]
         [(7, 0, ValueEventRegistration (JFunction 1) JNull JNull)],
       Ok (JFunction 1))
  ∧ getCancelAndContextArgs_ "Query.on" JNull (JObject 2)
    = Ok (mkCancelAndContext JNull JNull).
Proof. by split_and!. Qed.

(** ** The further properties at sample queries *)

Lemma transformation_same_location_witness :
  let h := heap_of [plainQuery] in
  ∃ q', queries (call OrderByPriority 0 [] h).1 !! 1 = Some q'
    ∧ path q' = ["rooms"] ∧ orderByCalled_ q' = true.
Proof.
  intros h.
  destruct (transformation_same_location OrderByPriority h 0 plainQuery []
              (call OrderByPriority 0 [] h).1 1 eq_refl eq_refl)
    as (q' & Hq' & _ & Hpath & _ & Hcalled).
  by exists q'.
Defined.

Lemma orderBy_returns_iff_witness :
  let h := heap_of [plainQuery; fromFive] in
  (∃ h' l', call OrderByValue 0 [] h = (h', Ok l'))
  ∧ ¬ (∃ h' l', call OrderByKey 1 [] h = (h', Ok l')).
Proof.
  intros h. split.
  - apply (orderBy_returns_iff OrderByValue h 0 plainQuery [] eq_refl eq_refl).
    by split_and!.
  - intros Hreturns.
    apply (orderBy_returns_iff OrderByKey h 1 fromFive [] eq_refl eq_refl)
      in Hreturns as (_ & _ & Hends).
    discriminate Hends.
Defined.

Lemma range_returns_iff_witness :
  let h := heap_of [plainQuery; rawLimitToFive] in
  (∃ h' l', call EndBefore 0 [JString "m"] h = (h', Ok l'))
  ∧ ¬ (∃ h' l', call StartAt 1 [num 3] h = (h', Ok l')).
Proof.
  intros h. split.
  - apply (range_returns_iff EndBefore h 0 plainQuery [JString "m"] eq_refl eq_refl).
    by split_and!.
  - intros Hreturns.
    apply (range_returns_iff StartAt h 1 rawLimitToFive [num 3] eq_refl eq_refl)
      in Hreturns as (_ & _ & Hlimit & _).
    discriminate Hlimit.
Defined.

Lemma limit_returns_iff_witness :
  let h := heap_of [plainQuery; firstOnly] in
  (∃ h' l', call LimitToLast 0 [num 2] h = (h', Ok l'))
  ∧ ¬ (∃ h' l', call LimitToLast 1 [num 2] h = (h', Ok l')).
Proof.
  intros h. split.
  - apply (limit_returns_iff LimitToLast h 0 plainQuery [num 2] eq_refl eq_refl eq_refl).
    split; [|reflexivity]. left. by exists 2%Z.
  - intros Hreturns.
    apply (limit_returns_iff LimitToLast h 1 firstOnly [num 2] eq_refl eq_refl eq_refl)
      in Hreturns as [_ Hlimit].
    discriminate Hlimit.
Defined.

Lemma equalTo_returned_witness :
  let h := heap_of [plainQuery] in
  ∃ q', queries (equalTo 0 [JString "a"] h).1 !! 2 = Some q'
    ∧ queryParams_ q' =
        queryParamsEndAt (queryParamsStartAt defaultQueryParams (JString "a") JUndefined)
          (JString "a") JUndefined.
Proof.
  intros h.
  destruct (equalTo_returned h 0 plainQuery [JString "a"]
              (equalTo 0 [JString "a"] h).1 2 eq_refl eq_refl)
    as (_ & _ & q' & Hq' & Hparams & _).
  by exists q'.
Defined.

Lemma chain_same_location_witness :
  let h := heap_of [plainQuery] in
  let calls := [(OrderByPriority, []); (StartAt, [num 3]); (LimitToFirst, [num 2])] in
  ∃ q', queries (chain calls 0 h).1 !! 3 = Some q'
    ∧ path q' = ["rooms"].
Proof.
  intros h calls.
  destruct (chain_same_location calls h 0 plainQuery (chain calls 0 h).1 3
              eq_refl eq_refl) as (q' & Hq' & _ & Hpath & _).
  by exists q'.
Defined.

Lemma second_orderBy_in_chain_throws_witness :
  ∃ h' e,
    chain [(StartAt, [JString "a"]); (OrderByKey, []); (LimitToFirst, [num 2]);
           (OrderByValue, [])] 0 (heap_of [plainQuery])
      = (h', Throw e).
Proof.
  exact (second_orderBy_in_chain_throws [(StartAt, [JString "a"])] OrderByKey []
           [(LimitToFirst, [num 2])] OrderByValue [] [] (heap_of [plainQuery]) 0
           plainQuery eq_refl eq_refl eq_refl).
Defined.

Lemma second_bound_throws_witness :
  ∃ h' e,
    chain [(StartAt, [JString "a"]); (StartAfter, [JString "b"])] 0
      (heap_of [plainQuery]) = (h', Throw e).
Proof.
  apply (second_bound_throws StartAt [JString "a"] StartAfter [JString "b"]
           (heap_of [plainQuery]) 0 plainQuery eq_refl eq_refl eq_refl);
    [|reflexivity].
  intros p v n. reflexivity.
Defined.

Lemma second_limit_throws_witness :
  ∃ h' e,
    chain [(LimitToFirst, [num 2]); (LimitToLast, [num 3])] 0
      (heap_of [plainQuery]) = (h', Throw e).
Proof.
  apply (second_limit_throws LimitToFirst [num 2] LimitToLast [num 3]
           (heap_of [plainQuery]) 0 plainQuery eq_refl eq_refl);
    [|reflexivity].
  intros p n. reflexivity.
Defined.

Lemma isEqual_rejects_non_query_witness :
  let h := heap_of [plainQuery] in
  (∃ e, isEqual 0 [JNull] h = (h, Throw e))
  ∧ (∃ e, isEqual 0 [JString "rooms"] h = (h, Throw e)).
Proof.
  intros h. split; eexists.
  - by apply (isEqual_rejects_non_query h 0 plainQuery JNull).
  - by apply (isEqual_rejects_non_query h 0 plainQuery (JString "rooms")).
Defined.

Lemma isEqual_equivalence_witness :
  let h := heap_of [plainQuery; firstOnly; plainQuery] in
  isEqual 0 [JQuery 2] h = isEqual 2 [JQuery 0] h
  ∧ isEqual 1 [JQuery 1] h = (h, Ok true).
Proof.
  intros h.
  destruct (isEqual_equivalence h) as (Hrefl & Hsym & _).
  - intros p. by apply bool_decide_eq_true.
  - intros p1 p2. apply bool_decide_ext. naive_solver.
  - intros p1 p2 p3 ?%bool_decide_eq_true ?%bool_decide_eq_true.
    apply bool_decide_eq_true. congruence.
  - reflexivity.
  - split.
    + by apply (Hsym 0 2 plainQuery plainQuery).
    + by apply (Hrefl 1 firstOnly).
Defined.

Lemma on_registers_or_throws_witness :
  let h := heap_of [plainQuery] in
  let args := [JString "child_added"; JFunction 1; JObject 2] in
  ∃ registration,
    registrations (on 0 args h).1 = [(7, 0, registration)].
Proof.
  intros h args.
  destruct (on_registers_or_throws h 0 plainQuery args (on 0 args h).1 (Ok (JFunction 1))
              eq_refl eq_refl) as (_ & _ & registration & Hregistered).
  by exists registration.
Defined.

Lemma off_names_what_on_registered_witness :
  let h := (on 0 [JString "child_added"; JFunction 1; JFunction 3; JObject 2]
              (heap_of [plainQuery])).1 in
  registrations h
    = [(7, 0, ChildEventRegistration [(JString "child_added", JFunction 1)]
                (JFunction 3) (JObject 2))]
  ∧ off forgetListeners 0 [JString "child_added"; JFunction 1; JObject 2] h
    = forgetListeners 7 0
        (Some (ChildEventRegistration [(JString "child_added", JFunction 1)]
                 JNull (JObject 2))) h.
Proof.
  intros h. split; [reflexivity|].
  exact (off_names_what_on_registered forgetListeners h 0 plainQuery
           (JString "child_added") (JFunction 1) (JFunction 3) (JObject 2)
           (mkCancelAndContext (JFunction 3) (JObject 2))
           eq_refl eq_refl eq_refl eq_refl eq_refl eq_refl eq_refl eq_refl).
Defined.
